(** * temporal-lite: the workflow replay engine of apps/temporal-lite/index.js

    A shallow embedding of the engine (history store, execution context,
    the activity wrapper, the timer, the driver and the history file) and
    the properties of its replay behaviour.

    What the embedding covers.  The two global objects [historyStore] and
    [context], the file history.json, the pending [setTimeout]s and the
    exit code of the process are fields of one state, threaded through the
    functions of the source in the order in which the source runs them.
    An [await] is a plain sequential call: activity bodies do not call
    back into the engine, and nothing else runs while the body of a
    workflow is between two steps.  The clock is read, never advanced,
    within one run of the program.  A registered wake-up is recorded and
    never fired: when [SleepError] reaches [errorHandler] the process exits
    before any timer can run, so every resumption is a fresh run of the
    program over the file.  Console output is left out.

    What it leaves out.  Values are immutable here.  In the source a log
    entry keeps the very object the body passed as input and the very
    object the activity returned and the body is handed as output
    (index.js:64, 72, 97), so a body or an activity that changed such an
    object in place afterwards would change the entry with it.  The bodies
    and activities of this development do not: they read the values they
    are given and make new ones, and every statement about bodies below
    is about such bodies and activities.
    Numbers are integers, which the numbers of the source hold exactly
    within the safe range ([safe_integer]); functions and symbols are not
    among the values.  Workflow ids are keys of finite maps; on the plain
    objects of the source an id that names a property of [Object.prototype]
    ([inherited_name]) finds the inherited value instead of nothing. *)

From stdpp Require Import gmap strings list fin_maps pretty.

Open Scope Z_scope.

#[local] Set Warnings "-register-all".


(** ** JavaScript values

    The values that flow through the engine: step inputs and outputs, and
    the two [Date] objects the timer records.  Numbers are the integers
    (the engine only adds millisecond counts); objects are property lists
    in insertion order. *)

Inductive jsval : Type :=
| VUndef
| VNull
| VBool (b : bool)
| VNum (n : Z)
| VStr (s : string)
| VDate (t : Z)
| VArr (items : list jsval)
| VObj (props : list (string * jsval)).

(** [x !== undefined] *)
Definition is_undefined (v : jsval) : bool :=
  match v with VUndef => true | _ => false end.

(** ** What [JSON.parse (JSON.stringify v)] gives back *)

Module Iso.

(** [w] decimal digits of [n], most significant first. *)
Fixpoint digits (w : nat) (n : Z) : string :=
  match w with
  | O => ""
  | S w' => digits w' (n / 10) +:+ pretty (n mod 10)
  end.

(** Proleptic Gregorian date of a day count from 1970-01-01. *)
Definition civil (day : Z) : Z * Z * Z :=
  let z := day + 719468 in
  let era := z / 146097 in
  let doe := z - era * 146097 in
  let yoe := (doe - doe / 1460 + doe / 36524 - doe / 146096) / 365 in
  let doy := doe - (365 * yoe + yoe / 4 - yoe / 100) in
  let mp := (5 * doy + 2) / 153 in
  let d := doy - (153 * mp + 2) / 5 + 1 in
  let m := if mp <? 10 then mp + 3 else mp - 9 in
  let y := yoe + era * 400 in
  (if m <=? 2 then y + 1 else y, m, d).

Definition year (y : Z) : string :=
  if (0 <=? y) && (y <=? 9999) then digits 4 y
  else (if y <? 0 then "-" else "+") +:+ digits 6 (Z.abs y).

(** [Date.prototype.toISOString] of a time value in milliseconds. *)
Definition toISOString (t : Z) : string :=
  let day := t / 86400000 in
  let r := t mod 86400000 in
  let '(y, m, d) := civil day in
  year y +:+ "-" +:+ digits 2 m +:+ "-" +:+ digits 2 d +:+ "T"
    +:+ digits 2 (r / 3600000) +:+ ":" +:+ digits 2 (r / 60000 mod 60)
    +:+ ":" +:+ digits 2 (r / 1000 mod 60) +:+ "." +:+ digits 3 (r mod 1000)
    +:+ "Z".

(** A [Date] holds a time value only within 8.64e15 ms of the epoch. *)
Definition valid (t : Z) : bool := Z.abs t <=? 8640000000000000.

End Iso.

(** A value after one trip through the history file.  A [Date] comes back
    as its ISO string ([null] when invalid), an [undefined] array slot as
    [null], and an [undefined] property is dropped. *)
Fixpoint to_json (v : jsval) : jsval :=
  match v with
  | VUndef => VUndef
  | VNull => VNull
  | VBool b => VBool b
  | VNum n => VNum n
  | VStr s => VStr s
  | VDate t => if Iso.valid t then VStr (Iso.toISOString t) else VNull
  | VArr items =>
      VArr (List.map (fun x => if is_undefined x then VNull else to_json x) items)
  | VObj props =>
      VObj ((fix go (ps : list (string * jsval)) : list (string * jsval) :=
               match ps with
               | [] => []
               | (k, x) :: ps' =>
                   if is_undefined x then go ps' else (k, to_json x) :: go ps'
               end) props)
  end.

(** ** History entries (the [ActivityHistory] objects) *)

Record entry : Type := mkEntry {
  e_id : string;
  e_name : string;
  e_status : string;
  e_input : jsval;
  e_output : jsval;   (* [VUndef] while the property is absent *)
}.

Definition entry_to_json (e : entry) : entry :=
  mkEntry (e_id e) (e_name e) (e_status e) (to_json (e_input e)) (to_json (e_output e)).

(** ** Errors and results of calls *)

Inductive error : Type :=
| SleepError (msg : string)
| JsError (msg : string)
| TypeError (msg : string)
| Thrown (v : jsval).

Inductive result (A : Type) : Type :=
| Ok (a : A)
| Throw (e : error).
Arguments Ok {A} a.
Arguments Throw {A} e.

(** [err instanceof SleepError] *)
Definition is_SleepError (e : error) : bool :=
  match e with SleepError _ => true | _ => false end.

(** ** Activities

    An activity function has a [name] and a body.  One invocation of the
    body is recorded as a [call]; the outcome of an invocation may depend
    on its input and on every invocation made before it. *)

Definition call : Type := string * jsval.

Record func : Type := mkFunc {
  fname : string;
  fbody : jsval → list call → result jsval;
}.

(** ** The state of the engine *)

Record wake : Type := mkWake {
  w_wid : string;
  w_set_at : Z;     (* [Date.now()] when [setTimeout] was called *)
  w_delay : Z;      (* the delay passed to [setTimeout] *)
}.



(** The names every plain object inherits from [Object.prototype]:
    [historyStore[wid]] and [context[wid]] are not [undefined] for them,
    even when nothing was stored under [wid]. *)
Definition inherited_name (key : string) : bool :=
  existsb (String.eqb key)
    ["constructor"; "toString"; "toLocaleString"; "valueOf"; "hasOwnProperty";
     "isPrototypeOf"; "propertyIsEnumerable"; "__proto__";
     "__defineGetter__"; "__defineSetter__";
     "__lookupGetter__"; "__lookupSetter__"].

Record state : Type := mkState {
  historyStore : gmap string (list entry);
  context : gmap string nat;                 (* [context[wid].seq] *)
  timers : list wake;                        (* pending [setTimeout]s *)
  exited : option Z;                         (* [process.exit] code *)
  file : option (gmap string (list entry));  (* history.json *)
  clock : Z;                                 (* the current time, ms *)
  calls : list call;                         (* activity bodies invoked so far *)
}.

Definition set_historyStore (h : gmap string (list entry)) (s : state) : state :=
  mkState h (context s) (timers s) (exited s) (file s) (clock s) (calls s).
Definition set_context (c : gmap string nat) (s : state) : state :=
  mkState (historyStore s) c (timers s) (exited s) (file s) (clock s) (calls s).
Definition set_timers (t : list wake) (s : state) : state :=
  mkState (historyStore s) (context s) t (exited s) (file s) (clock s) (calls s).
Definition set_exited (x : option Z) (s : state) : state :=
  mkState (historyStore s) (context s) (timers s) x (file s) (clock s) (calls s).
Definition set_file (f : option (gmap string (list entry))) (s : state) : state :=
  mkState (historyStore s) (context s) (timers s) (exited s) f (clock s) (calls s).
Definition set_clock (t : Z) (s : state) : state :=
  mkState (historyStore s) (context s) (timers s) (exited s) (file s) t (calls s).
Definition set_calls (c : list call) (s : state) : state :=
  mkState (historyStore s) (context s) (timers s) (exited s) (file s) (clock s) c.


(** ** Computations of the engine: a state and exception monad *)

Definition M (A : Type) : Type := state → result A * state.

Definition ret {A} (a : A) : M A := fun s => (Ok a, s).
Definition throw {A} (e : error) : M A := fun s => (Throw e, s).
Definition bind {A B} (m : M A) (f : A → M B) : M B := fun s =>
  match m s with
  | (Ok a, s') => f a s'
  | (Throw e, s') => (Throw e, s')
  end.
Definition modify (f : state → state) : M unit := fun s => (Ok tt, f s).

Declare Scope engine_scope.
Delimit Scope engine_scope with engine.
Notation "x ← y ; z" := (bind y (fun x => z))
  (at level 20, y at level 100, z at level 200, only parsing) : engine_scope.
Notation "y ;; z" := (bind y (fun _ => z))
  (at level 100, z at level 200, only parsing, right associativity) : engine_scope.
Open Scope engine_scope.

(** ** Primitive operations on the two global maps *)

(** [historyStore[wid] = historyStore[wid] || []] *)
Definition ensure_history (wid : string) (s : state) : state :=
  match historyStore s !! wid with
  | Some _ => s
  | None => set_historyStore (<[wid := []]> (historyStore s)) s
  end.

(** [ctx.seq += 1] on the context object of [wid] *)
Definition incr_seq (wid : string) : M unit := fun s =>
  match context s !! wid with
  | Some seq => (Ok tt, set_context (<[wid := S seq]> (context s)) s)
  | None => (Throw (TypeError "Cannot read properties of undefined (reading 'seq')"), s)
  end.

(** [historyStore[wid].push(historyEntry)]; the result is the index at which
    the pushed object now sits, through which it is mutated later. *)
Definition push_entry (wid : string) (e : entry) : M nat := fun s =>
  match historyStore s !! wid with
  | Some hs => (Ok (length hs), set_historyStore (<[wid := hs ++ [e]]> (historyStore s)) s)
  | None => (Throw (TypeError "Cannot read properties of undefined (reading 'push')"), s)
  end.

(** [historyEntry.status = st; historyEntry.output = out] on the object
    pushed at index [idx]. *)
Definition complete (st : string) (out : jsval) (e : entry) : entry :=
  mkEntry (e_id e) (e_name e) st (e_input e) out.

Definition finish_entry (wid : string) (idx : nat) (st : string) (out : jsval) : M unit :=
  modify (fun s =>
    set_historyStore (alter (alter (complete st out) idx) wid (historyStore s)) s).

(** [await func(input)]: one invocation of the activity body. *)
Definition invoke (f : func) (input : jsval) : M jsval := fun s =>
  (fbody f input (calls s), set_calls (calls s ++ [(fname f, input)]) s).

(** ** [getCachedResult] *)

Definition mismatch (recorded invoked : string) : error :=
  JsError ("Activity name mismatch: " +:+ recorded +:+ " !== " +:+ invoked +:+ "").

Definition getCachedResult (wid : string) (ctx : option nat) (name : string) : M jsval :=
  fun s =>
  match ctx with
  | None => (Throw (TypeError "Cannot read properties of undefined (reading 'seq')"), s)
  | Some seq =>
      match historyStore s !! wid with
      | None => (Throw (TypeError "Cannot read properties of undefined (reading 'length')"), s)
      | Some hs =>
          match hs !! seq with
          | Some e =>
              if String.eqb (e_status e) "completed" then
                if negb (String.eqb (e_name e) name) then
                  (Throw (mismatch (e_name e) name), s)
                else (Ok (e_output e), s)
              else (Ok VUndef, s)
          | None => (Ok VUndef, s)
          end
      end
  end.

(** ** [ActivityFromFunction] *)

Definition ActivityFromFunction (wid : string) (f : func) (input : jsval) : M jsval :=
  fun s0 =>
  let ctx := context s0 !! wid in
  (modify (ensure_history wid) ;;
   lastReturn ← getCachedResult wid ctx (fname f);
   incr_seq wid ;;
   if negb (is_undefined lastReturn) then ret lastReturn
   else
     idx ← push_entry wid (mkEntry wid (fname f) "running" input VUndef);
     r ← invoke f input;
     finish_entry wid idx "completed" r ;;
     ret r) s0.

(** ** [ScheduleWakeUp] and [workflowSleep] *)

Definition ScheduleWakeUp (workflowId : string) (timestamp : Z) : M unit :=
  modify (fun s =>
    let now := clock s in
    set_timers (timers s ++ [mkWake workflowId now (timestamp - now)]) s).

Definition sleep_input (now ms : Z) : jsval :=
  VObj [("now", VDate now); ("wakeUpAt", VDate (now + ms))].

Definition workflowSleep (wid : string) (ms : Z) : M jsval :=
  fun s0 =>
  let ctx := context s0 !! wid in
  (modify (ensure_history wid) ;;
   lastReturn ← getCachedResult wid ctx "sleep";
   incr_seq wid ;;
   if negb (is_undefined lastReturn) then ret lastReturn
   else
     modify (ensure_history wid) ;;
     fun s =>
     let now := clock s in
     (idx ← push_entry wid (mkEntry wid "sleep" "running" (sleep_input now ms) VUndef);
      ScheduleWakeUp wid (now + ms) ;;
      finish_entry wid idx "completed" VNull ;;
      throw (SleepError "SLEEP")) s) s0.

(** ** Workflow bodies

    A workflow body is sequential code that awaits steps of the
    [activities] object it is given.  What it does next can depend only on
    how the awaited steps came out (a value, or an error it may catch), so
    a body is the tree of its step calls.  Such a body leaves the objects
    it passes to its steps, and those its steps hand it, as they are. *)

Inductive workflow : Type :=
| Return (v : jsval)
| Raise (e : error)
| CallActivity (f : func) (input : jsval) (k : result jsval → workflow)
| CallSleep (ms : Z) (k : result jsval → workflow).

(** Code that does not catch: an error ends the body. *)
Definition uncaught (k : jsval → workflow) (r : result jsval) : workflow :=
  match r with
  | Ok v => k v
  | Throw e => Raise e
  end.

(** One awaited step of the body. *)
Definition body_step (wid : string) (w : workflow) (s : state)
  : option (result jsval * workflow * state) :=
  match w with
  | Return _ | Raise _ => None
  | CallActivity f input k =>
      let '(r, s') := ActivityFromFunction wid f input s in Some (r, k r, s')
  | CallSleep ms k =>
      let '(r, s') := workflowSleep wid ms s in Some (r, k r, s')
  end.

(** The body run until it returns or throws. *)
Fixpoint run_workflow (wid : string) (w : workflow) (s : state) : result jsval * state :=
  match w with
  | Return v => (Ok v, s)
  | Raise e => (Throw e, s)
  | CallActivity f input k =>
      let '(r, s') := ActivityFromFunction wid f input s in run_workflow wid (k r) s'
  | CallSleep ms k =>
      let '(r, s') := workflowSleep wid ms s in run_workflow wid (k r) s'
  end.

(** Runs of the body, step by step, with the outcome of every step call. *)
Inductive exec (wid : string)
  : workflow → state → list (result jsval) → workflow → state → Prop :=
| exec_done w s : exec wid w s [] w s
| exec_more w s r w1 s1 outs w2 s2 :
    body_step wid w s = Some (r, w1, s1) →
    exec wid w1 s1 outs w2 s2 →
    exec wid w s (r :: outs) w2 s2.

(** ** The example activity and workflow of the source *)

Definition SendSlackMessage : func :=
  mkFunc "SendSlackMessage" (fun _ _ => Ok (VObj [("success", VBool true)])).

Fixpoint NotifyWorkflow_from (fuel : nat) (i : Z) : workflow :=
  match fuel with
  | O => Return VUndef
  | S fuel' =>
      if i <? 3 then
        CallActivity SendSlackMessage (VStr ("message " +:+ pretty i))
          (uncaught (fun _ =>
             CallSleep 3000 (uncaught (fun _ => NotifyWorkflow_from fuel' (i + 1)))))
      else Return VUndef
  end.

Definition NotifyWorkflow : workflow := NotifyWorkflow_from 4 0.

(** ** The history file and the driver *)

Definition saveHistoryToFile : M unit :=
  modify (fun s => set_file (Some (fmap (M := gmap string) (List.map entry_to_json) (historyStore s))) s).

Definition loadHistoryFromFile : M unit :=
  modify (fun s =>
    match file s with
    | Some parsed => set_historyStore (parsed ∪ historyStore s) s
    | None => s
    end).

Definition errorHandler (err : error) : M unit :=
  if is_SleepError err then
    saveHistoryToFile ;; modify (set_exited (Some 0))
  else ret tt.

(** [body(...).catch(errorHandler)] *)
Definition drive (wid : string) (body : workflow) : M unit := fun s =>
  match run_workflow wid body s with
  | (Ok _, s') => (Ok tt, s')
  | (Throw e, s') => errorHandler e s'
  end.

(** The source runs [NotifyWorkflow]; the driver is the same for any body. *)
Definition StartWorkflow (body : workflow) : M unit :=
  let workflowId := "workflowId" in
  modify (fun s => set_context (<[workflowId := O]> (context s)) s) ;;
  modify (fun s => set_historyStore (<[workflowId := []]> (historyStore s)) s) ;;
  drive workflowId body.

Definition ResumeWorkflow (workflowId : string) (body : workflow) : M unit :=
  modify (fun s => set_context (<[workflowId := O]> (context s)) s) ;;
  drive workflowId body.

(** A process starts with empty maps; the file, the clock and what the
    activities did to the world outlive it. *)
Definition boot (s : state) : state :=
  mkState ∅ ∅ [] None (file s) (clock s) (calls s).

(** The top level of the module: load, then resume or start. *)
Definition main (body : workflow) : M unit :=
  loadHistoryFromFile ;;
  fun s =>
  match historyStore s !! "workflowId" with
  | Some _ => ResumeWorkflow "workflowId" body s
  | None => StartWorkflow body s
  end.

(** One run of the program at time [t]. *)
Definition pass (body : workflow) (t : Z) (s : state) : state :=
  snd (main body (set_clock t (boot s))).

Definition passes (body : workflow) (ts : list Z) (s : state) : state :=
  fold_left (fun s t => pass body t s) ts s.

(** ** Notions used to state the properties *)

(** The decision [getCachedResult] takes on a log [hs] at position [seq]. *)
Definition cache_at (hs : list entry) (seq : nat) (name : string) : result jsval :=
  match hs !! seq with
  | Some e =>
      if String.eqb (e_status e) "completed" then
        if negb (String.eqb (e_name e) name) then Throw (mismatch (e_name e) name)
        else Ok (e_output e)
      else Ok VUndef
  | None => Ok VUndef
  end.

(** The entries a step leaves behind. *)
Definition running_entry (wid name : string) (input : jsval) : entry :=
  mkEntry wid name "running" input VUndef.
Definition completed_entry (wid name : string) (input out : jsval) : entry :=
  mkEntry wid name "completed" input out.
Definition timer_entry (wid : string) (now ms : Z) : entry :=
  completed_entry wid "sleep" (sleep_input now ms) VNull.

(** The log [hs] records, step by step, a run of the body [w] that has
    reached [w']: each step has its completed entry under its own name, and
    the body went on with the recorded output. *)
Inductive recorded : workflow → list entry → workflow → Prop :=
| recorded_nil w : recorded w [] w
| recorded_activity f input k e hs w' :
    e_status e = "completed" → e_name e = fname f →
    recorded (k (Ok (e_output e))) hs w' →
    recorded (CallActivity f input k) (e :: hs) w'
| recorded_sleep ms k e hs w' :
    e_status e = "completed" → e_name e = "sleep" →
    recorded (k (Ok (e_output e))) hs w' →
    recorded (CallSleep ms k) (e :: hs) w'.

Definition defined_output (e : entry) : Prop := e_output e ≠ VUndef.
Definition stable_output (e : entry) : Prop := to_json (e_output e) = e_output e.

(** The reference run of a body, never interrupted: every timer returns
    [null] at once.  It gives the activity invocations made, the number of
    timers passed and the outcome of the body. *)
Fixpoint uninterrupted (w : workflow) (tr : list call) : list call * nat * result jsval :=
  match w with
  | Return v => (tr, O, Ok v)
  | Raise e => (tr, O, Throw e)
  | CallActivity f input k =>
      uninterrupted (k (fbody f input tr)) (tr ++ [(fname f, input)])
  | CallSleep ms k =>
      let '(tr', n, r) := uninterrupted (k (Ok VNull)) tr in (tr', S n, r)
  end.

(** An activity that always returns a value, one that is not [undefined]
    and that the history file gives back unchanged. *)
Definition reliable (f : func) : Prop :=
  ∀ input tr, ∃ v, fbody f input tr = Ok v ∧ v ≠ VUndef ∧ to_json v = v.

(** Bodies built from reliable activities that let the timer's error
    through. *)
Inductive steady : workflow → Prop :=
| steady_return v : steady (Return v)
| steady_raise e : steady (Raise e)
| steady_activity f input k :
    reliable f →
    (∀ v, v ≠ VUndef → to_json v = v → steady (k (Ok v))) →
    steady (CallActivity f input k)
| steady_sleep ms k :
    k (Throw (SleepError "SLEEP")) = Raise (SleepError "SLEEP") →
    steady (k (Ok VNull)) →
    steady (CallSleep ms k).

(** The body [w] is about to await the step named [nm], and does not catch
    what that step throws. *)
Definition awaits (w : workflow) (nm : string) : Prop :=
  (∃ f input k, w = CallActivity f input (uncaught k) ∧ nm = fname f)
  ∨ (∃ ms k, w = CallSleep ms (uncaught k) ∧ nm = "sleep").

(** A step call that returned, or that suspended the workflow. *)
Definition returns_or_suspends (r : result jsval) : Prop :=
  match r with
  | Ok _ => True
  | Throw e => is_SleepError e = true
  end.


(** The state after a cache hit, after a cache miss of an activity that
    left entry [e], and after a cache miss of the timer. *)
Definition after_hit (wid : string) (seq : nat) (s : state) : state :=
  set_context (<[wid := S seq]> (context s)) s.
Arguments after_hit wid seq%_nat s.

Definition after_miss (wid : string) (seq : nat) (hs : list entry) (e : entry)
    (c : call) (s : state) : state :=
  mkState (<[wid := hs ++ [e]]> (historyStore s)) (<[wid := S seq]> (context s))
    (timers s) (exited s) (file s) (clock s) (calls s ++ [c]).

Definition after_sleep (wid : string) (seq : nat) (hs : list entry) (ms : Z)
    (s : state) : state :=
  mkState (<[wid := hs ++ [timer_entry wid (clock s) ms]]> (historyStore s))
    (<[wid := S seq]> (context s))
    (timers s ++ [mkWake wid (clock s) ms]) (exited s) (file s) (clock s) (calls s).


(** ** Sample activities, bodies and states *)

Definition stepA : func := mkFunc "stepA" (fun _ _ => Ok (VNum 2)).
Definition stepB : func := mkFunc "stepB" (fun _ _ => Ok (VNum 4)).
(** An activity that returns no value, and one that fails. *)
Definition quiet : func := mkFunc "quiet" (fun _ _ => Ok VUndef).
Definition boom : func := mkFunc "boom" (fun _ _ => Throw (JsError "boom")).

(** [await stepA(1); await sleep(5000); return await stepB(2)] *)
Definition scenario : workflow :=
  CallActivity stepA (VNum 1) (uncaught (fun _ =>
    CallSleep 5000 (uncaught (fun _ =>
      CallActivity stepB (VNum 2) (uncaught Return))))).

(** [await f(input)] and nothing else. *)
Definition single (f : func) (input : jsval) : workflow :=
  CallActivity f input (uncaught Return).

(** [await sleep(1000); return await stepB(2)] *)
Definition sleep_then_B : workflow :=
  CallSleep 1000 (uncaught (fun _ => single stepB (VNum 2))).





(** The entries of the scenario, and the entry [quiet] leaves. *)
Definition entryA : entry := completed_entry "workflowId" "stepA" (VNum 1) (VNum 2).
Definition entrySleep : entry := timer_entry "workflowId" 1000 5000.
Definition entryB : entry := completed_entry "workflowId" "stepB" (VNum 2) (VNum 4).
Definition entryQuiet : entry := completed_entry "workflowId" "quiet" VNull VUndef.

(** A process in which workflow "workflowId" has log [hs] and cursor [seq]. *)
Definition in_flight (hs : list entry) (seq : nat) : state :=
  mkState {[ "workflowId" := hs ]} {[ "workflowId" := seq ]} [] None None 1000 [].
Arguments in_flight hs seq%_nat.

(** Before the program has ever run. *)
Definition pristine : state := mkState ∅ ∅ [] None None 1000 [].

(** The file holds a log that records a run of [body] up to [w], a point
    from which the body is steady. *)
Definition checkpoint (body : workflow) (hs : list entry) (w : workflow) (s : state) : Prop :=
  file s = Some {[ "workflowId" := hs ]}
  ∧ recorded body hs w
  ∧ Forall defined_output hs ∧ Forall stable_output hs
  ∧ steady w.

(** ** Notions used to state further properties *)

(** The reference run of a body up to its next timer: the invocations made
    by then, and the delay of that timer with what the body does after it
    ([None] when the body ends first). *)
Fixpoint until_timer (w : workflow) (tr : list call)
  : list call * option (Z * workflow) :=
  match w with
  | Return _ | Raise _ => (tr, None)
  | CallActivity f input k =>
      until_timer (k (fbody f input tr)) (tr ++ [(fname f, input)])
  | CallSleep ms k => (tr, Some (ms, k (Ok VNull)))
  end.

(** A store, or a file, that a trip through the history file leaves as it
    is. *)
Definition normalised (m : gmap string (list entry)) : Prop :=
  List.map entry_to_json <$> m = m.




(** The messages [NotifyWorkflow_from fuel i] has yet to send. *)
Fixpoint notify_messages (fuel : nat) (i : Z) : list call :=
  match fuel with
  | O => []
  | S fuel' =>
      if i <? 3 then
        ("SendSlackMessage", VStr ("message " +:+ pretty i))
          :: notify_messages fuel' (i + 1)
      else []
  end.

(** What one step call can do to the state, once the log of its workflow
    exists: nothing (it failed before moving the cursor), a hit, a miss of
    an activity, a miss of the timer. *)
Inductive step_effect (wid : string) (s : state) : state → Prop :=
| effect_none : step_effect wid s s
| effect_hit seq hs :
    context s !! wid = Some seq → historyStore s !! wid = Some hs →
    (seq < length hs)%nat →
    step_effect wid s (after_hit wid seq s)
| effect_miss seq hs e c :
    context s !! wid = Some seq → historyStore s !! wid = Some hs →
    step_effect wid s (after_miss wid seq hs e c s)
| effect_sleep seq hs ms :
    context s !! wid = Some seq → historyStore s !! wid = Some hs →
    step_effect wid s (after_sleep wid seq hs ms s).

(** The log of [wid], empty when there is none. *)
Definition log_of (wid : string) (s : state) : list entry :=
  default [] (historyStore s !! wid).

(** The cursor of [wid] exists and is not past the end of the log. *)
Definition cursor_within_log (wid : string) (s : state) : Prop :=
  ∃ seq, context s !! wid = Some seq ∧ (seq ≤ length (log_of wid s))%nat.

(** A body that ended by returning, or by an error other than
    [SleepError]. *)
Definition settled (r : result jsval) : Prop :=
  match r with
  | Ok _ => True
  | Throw e => is_SleepError e = false
  end.

(** * Properties *)

Lemma is_undefined_true v : is_undefined v = true ↔ v = VUndef.
Proof. destruct v; simpl; split; congruence. Qed.

Lemma is_undefined_false v : is_undefined v = false ↔ v ≠ VUndef.
Proof. destruct v; simpl; split; congruence. Qed.

Example iso_epoch : Iso.toISOString 0 = "1970-01-01T00:00:00.000Z".
Proof. vm_compute. reflexivity. Qed.
Example iso_2025 : Iso.toISOString 1749817845123 = "2025-06-13T12:30:45.123Z".
Proof. vm_compute. reflexivity. Qed.
Example iso_leap : Iso.toISOString 951782400000 = "2000-02-29T00:00:00.000Z".
Proof. vm_compute. reflexivity. Qed.
Example iso_neg : Iso.toISOString (-1) = "1969-12-31T23:59:59.999Z".
Proof. vm_compute. reflexivity. Qed.
Example iso_year0 : Iso.toISOString (-62167219200000) = "0000-01-01T00:00:00.000Z".
Proof. vm_compute. reflexivity. Qed.
Example iso_bc : Iso.toISOString (-62167219200001) = "-000001-12-31T23:59:59.999Z".
Proof. vm_compute. reflexivity. Qed.
Example iso_billion : Iso.toISOString 1000000000000 = "2001-09-09T01:46:40.000Z".
Proof. vm_compute. reflexivity. Qed.
Example iso_max : Iso.toISOString 8640000000000000 = "+275760-09-13T00:00:00.000Z".
Proof. vm_compute. reflexivity. Qed.

(** ** The cache decision *)

Lemma cache_at_hit hs seq name e :
  hs !! seq = Some e → e_status e = "completed" → e_name e = name →
  cache_at hs seq name = Ok (e_output e).
Proof.
  intros He Hst Hn. unfold cache_at. rewrite He, Hst, Hn. simpl.
  by rewrite String.eqb_refl.
Qed.

Lemma cache_at_mismatch hs seq name e :
  hs !! seq = Some e → e_status e = "completed" → e_name e ≠ name →
  cache_at hs seq name = Throw (mismatch (e_name e) name).
Proof.
  intros He Hst Hn. unfold cache_at. rewrite He, Hst. simpl.
  apply String.eqb_neq in Hn. by rewrite Hn.
Qed.

Lemma cache_at_end hs seq name :
  (length hs ≤ seq)%nat → cache_at hs seq name = Ok VUndef.
Proof.
  intros Hlen. unfold cache_at. by rewrite (lookup_ge_None_2 hs seq Hlen).
Qed.

Section OneWorkflow.

(** The steps of one workflow instance. *)
Context (wid : string).

(** ** The step wrappers, case by case *)

Lemma getCachedResult_eq seq name s hs :
  historyStore s !! wid = Some hs →
  getCachedResult wid (Some seq) name s = (cache_at hs seq name, s).
Proof.
  intros Hhs. unfold getCachedResult, cache_at. rewrite Hhs.
  destruct (hs !! seq) as [e|]; [|done].
  destruct (String.eqb (e_status e) "completed"); [|done].
  by destruct (negb (String.eqb (e_name e) name)).
Qed.

Lemma ensure_history_id s hs :
  historyStore s !! wid = Some hs → ensure_history wid s = s.
Proof. intros H. unfold ensure_history. by rewrite H. Qed.

(** The entry pushed last is the one the wrapper completes. *)
Lemma finish_pushed (hs : list entry) e st out (m : gmap string (list entry)) :
  alter (alter (complete st out) (length hs)) wid (<[wid := hs ++ [e]]> m)
  = <[wid := hs ++ [complete st out e]]> m.
Proof.
  rewrite alter_insert_eq. f_equal.
  rewrite alter_app_r_alt by lia. by rewrite Nat.sub_diag.
Qed.

Lemma ActivityFromFunction_eq f input s seq hs :
  context s !! wid = Some seq →
  historyStore s !! wid = Some hs →
  ActivityFromFunction wid f input s =
    match cache_at hs seq (fname f) with
    | Throw e => (Throw e, s)
    | Ok v =>
        if negb (is_undefined v) then (Ok v, after_hit wid seq s)
        else
          match fbody f input (calls s) with
          | Ok r =>
              (Ok r, after_miss wid seq hs (completed_entry wid (fname f) input r)
                       (fname f, input) s)
          | Throw e =>
              (Throw e, after_miss wid seq hs (running_entry wid (fname f) input)
                          (fname f, input) s)
          end
    end.
Proof.
  intros Hctx Hhs. unfold ActivityFromFunction, bind, modify. rewrite Hctx.
  rewrite (ensure_history_id _ _ Hhs), (getCachedResult_eq _ _ _ _ Hhs).
  destruct (cache_at hs seq (fname f)) as [v|e]; [|done].
  unfold incr_seq. rewrite Hctx.
  destruct (negb (is_undefined v)); [done|].
  unfold push_entry, invoke, finish_entry, modify, ret. simpl. rewrite Hhs. simpl.
  destruct (fbody f input (calls s)) as [r|e]; simpl.
  - unfold after_miss, set_historyStore. simpl.
    by rewrite finish_pushed.
  - done.
Qed.

Lemma workflowSleep_eq ms s seq hs :
  context s !! wid = Some seq →
  historyStore s !! wid = Some hs →
  workflowSleep wid ms s =
    match cache_at hs seq "sleep" with
    | Throw e => (Throw e, s)
    | Ok v =>
        if negb (is_undefined v) then (Ok v, after_hit wid seq s)
        else (Throw (SleepError "SLEEP"), after_sleep wid seq hs ms s)
    end.
Proof.
  intros Hctx Hhs. unfold workflowSleep, bind, modify. rewrite Hctx.
  rewrite (ensure_history_id _ _ Hhs), (getCachedResult_eq _ _ _ _ Hhs).
  destruct (cache_at hs seq "sleep") as [v|e]; [|done].
  unfold incr_seq. rewrite Hctx.
  destruct (negb (is_undefined v)); [done|].
  rewrite ensure_history_id with (hs := hs) by done.
  unfold push_entry, ScheduleWakeUp, finish_entry, modify, throw. simpl. rewrite Hhs. simpl.
  unfold after_sleep, set_historyStore, set_timers. simpl.
  rewrite finish_pushed. by rewrite Z.add_simpl_l.
Qed.

(** ** Replay: steps already recorded are answered from the log *)

Lemma set_context_same n s :
  context s !! wid = Some n → set_context (<[wid := n]> (context s)) s = s.
Proof.
  intros H. unfold set_context. rewrite (insert_id _ _ _ H). by destruct s.
Qed.

(** After a hit on [e] at the end of [hs1], the rest of the log is replayed
    by the induction hypothesis [IH] with [hs1 ++ [e]] in place of [hs1]. *)
Ltac replay_rest IH hs1 e hs3 :=
  rewrite (IH (hs1 ++ [e]) hs3);
  [ unfold after_hit, set_context; simpl; rewrite insert_insert_eq;
    rewrite length_app; simpl; do 3 f_equal; lia
  | unfold after_hit; simpl; by rewrite <- app_assoc
  | unfold after_hit; simpl; rewrite lookup_insert_eq, length_app; simpl;
    f_equal; lia ].

Lemma replay w hs2 w' :
  recorded w hs2 w' →
  Forall defined_output hs2 →
  ∀ hs1 hs3 s,
    historyStore s !! wid = Some (hs1 ++ hs2 ++ hs3) →
    context s !! wid = Some (length hs1) →
    run_workflow wid w s
    = run_workflow wid w'
        (set_context (<[wid := (length hs1 + length hs2)%nat]> (context s)) s).
Proof.
  induction 1 as [w|f input k e hs w' Hst Hn _ IH|ms k e hs w' Hst Hn _ IH];
    intros Hdef hs1 hs3 s Hhs Hctx.
  - simpl. rewrite Nat.add_0_r. by rewrite set_context_same.
  - apply Forall_cons in Hdef as [He Hdef]. simpl.
    change ((e :: hs) ++ hs3) with (e :: (hs ++ hs3)) in Hhs.
    rewrite (ActivityFromFunction_eq _ _ _ _ _ Hctx Hhs).
    rewrite (cache_at_hit _ _ _ e (list_lookup_middle _ _ _ _ eq_refl) Hst Hn).
    apply is_undefined_false in He. rewrite He. simpl.
    specialize (IH Hdef). replay_rest IH hs1 e hs3.
  - apply Forall_cons in Hdef as [He Hdef]. simpl.
    change ((e :: hs) ++ hs3) with (e :: (hs ++ hs3)) in Hhs.
    rewrite (workflowSleep_eq _ _ _ _ Hctx Hhs).
    rewrite (cache_at_hit _ _ _ e (list_lookup_middle _ _ _ _ eq_refl) Hst Hn).
    apply is_undefined_false in He. rewrite He. simpl.
    specialize (IH Hdef). replay_rest IH hs1 e hs3.
Qed.

(** A recorded run is replayed from the start of a pass. *)
Lemma replay_from_start w hs w' s :
  recorded w hs w' →
  Forall defined_output hs →
  historyStore s !! wid = Some hs →
  context s !! wid = Some O →
  run_workflow wid w s
  = run_workflow wid w' (set_context (<[wid := length hs]> (context s)) s).
Proof.
  intros Hrec Hdef Hhs Hctx.
  apply (replay w hs w' Hrec Hdef [] [] s); by rewrite ?app_nil_r.
Qed.

(** ** Live execution: past the end of the log every step is a miss *)


End OneWorkflow.

(** ** Logs and the history file *)

Lemma recorded_app a h1 b h2 c :
  recorded a h1 b → recorded b h2 c → recorded a (h1 ++ h2) c.
Proof.
  induction 1; intros Hbc; simpl; [done|..].
  - apply recorded_activity; auto.
  - apply recorded_sleep; auto.
Qed.

Lemma recorded_to_json w hs w' :
  recorded w hs w' → Forall stable_output hs →
  recorded w (List.map entry_to_json hs) w'.
Proof.
  induction 1 as [w|f input k e hs w' Hst Hn _ IH|ms k e hs w' Hst Hn _ IH];
    intros Hstab; simpl; [constructor|..];
    apply Forall_cons in Hstab as [He Hstab].
  - apply recorded_activity; try done. simpl. rewrite He. auto.
  - apply recorded_sleep; try done. simpl. rewrite He. auto.
Qed.

Lemma outputs_to_json hs :
  Forall defined_output hs → Forall stable_output hs →
  Forall defined_output (List.map entry_to_json hs)
  ∧ Forall stable_output (List.map entry_to_json hs).
Proof.
  induction hs as [|e hs IH]; intros Hd Hs; simpl; [by split|].
  apply Forall_cons in Hd as [Hd1 Hd]. apply Forall_cons in Hs as [Hs1 Hs].
  destruct (IH Hd Hs) as [IHd IHs]. unfold defined_output, stable_output in *.
  split; constructor; simpl; try done; by rewrite !Hs1.
Qed.

(** ** The driver *)

Lemma drive_calls wid body s :
  calls (snd (drive wid body s)) = calls (snd (run_workflow wid body s)).
Proof.
  unfold drive. destruct (run_workflow wid body s) as [[v|e] s']; [done|].
  unfold errorHandler. by destruct (is_SleepError e).
Qed.

Lemma drive_suspended wid body s msg s' :
  run_workflow wid body s = (Throw (SleepError msg), s') →
  snd (drive wid body s)
  = set_exited (Some 0)
      (set_file (Some (List.map entry_to_json <$> historyStore s')) s').
Proof. intros H. unfold drive. by rewrite H. Qed.





(** ** The sample bodies are steady *)

Lemma reliable_stepA : reliable stepA.
Proof. intros input tr. exists (VNum 2). by repeat split. Qed.

Lemma reliable_stepB : reliable stepB.
Proof. intros input tr. exists (VNum 4). by repeat split. Qed.

Lemma reliable_SendSlackMessage : reliable SendSlackMessage.
Proof. intros input tr. exists (VObj [("success", VBool true)]). by repeat split. Qed.

Lemma steady_single f input : reliable f → steady (single f input).
Proof. intros Hf. apply steady_activity; [done|]. intros; simpl; constructor. Qed.


Lemma steady_NotifyWorkflow_from fuel i : steady (NotifyWorkflow_from fuel i).
Proof.
  revert i. induction fuel as [|fuel IH]; intros i; simpl; [constructor|].
  destruct (i <? 3); [|constructor].
  apply steady_activity; [apply reliable_SendSlackMessage|]. intros v _ _. simpl.
  apply steady_sleep; [done|]. simpl. apply IH.
Qed.

(** ** What the steps never touch *)

Lemma ActivityFromFunction_frame wid f input s r s' :
  ActivityFromFunction wid f input s = (r, s') →
  file s' = file s ∧ exited s' = exited s ∧ clock s' = clock s ∧ timers s' = timers s.
Proof.
  unfold ActivityFromFunction, bind, modify, getCachedResult, incr_seq, push_entry,
    invoke, finish_entry, modify, ret, ensure_history.
  intros H. repeat (case_match; simplify_eq/=); done.
Qed.

Lemma workflowSleep_frame wid ms s r s' :
  workflowSleep wid ms s = (r, s') →
  file s' = file s ∧ exited s' = exited s ∧ clock s' = clock s ∧ calls s' = calls s.
Proof.
  unfold workflowSleep, bind, modify, getCachedResult, incr_seq, push_entry,
    ScheduleWakeUp, finish_entry, modify, ret, throw, ensure_history.
  intros H. repeat (case_match; simplify_eq/=); done.
Qed.

Lemma run_workflow_frame wid w :
  ∀ s r s', run_workflow wid w s = (r, s') →
  file s' = file s ∧ exited s' = exited s ∧ clock s' = clock s.
Proof.
  induction w as [v|e|f input k IH|ms k IH]; intros s r s' Hrun; simpl in Hrun.
  - by simplify_eq.
  - by simplify_eq.
  - destruct (ActivityFromFunction wid f input s) as [r1 s1] eqn:H1.
    apply ActivityFromFunction_frame in H1 as (<- & <- & <- & _).
    eapply IH, Hrun.
  - destruct (workflowSleep wid ms s) as [r1 s1] eqn:H1.
    apply workflowSleep_frame in H1 as (<- & <- & <- & _).
    eapply IH, Hrun.
Qed.

(** When the activity body throws, the wrapper lets the error through and
    the entry pushed before the call keeps the status it was pushed with. *)
Lemma failure_leaves_running wid f input s seq hs err :
  context s !! wid = Some seq →
  historyStore s !! wid = Some hs →
  cache_at hs seq (fname f) = Ok VUndef →
  fbody f input (calls s) = Throw err →
  ActivityFromFunction wid f input s
  = (Throw err,
     after_miss wid seq hs (running_entry wid (fname f) input) (fname f, input) s).
Proof.
  intros Hctx Hhs Hmiss Hf.
  by rewrite (ActivityFromFunction_eq _ _ _ _ _ _ Hctx Hhs), Hmiss, Hf.
Qed.

(** ** Runs step by step and the body run as a whole *)

Lemma body_step_run wid w s r w1 s1 :
  body_step wid w s = Some (r, w1, s1) →
  run_workflow wid w s = run_workflow wid w1 s1.
Proof.
  destruct w as [v|e|f input k|ms k]; simpl; try done.
  - destruct (ActivityFromFunction wid f input s). by intros [= <- <- <-].
  - destruct (workflowSleep wid ms s). by intros [= <- <- <-].
Qed.

Lemma exec_run wid w s outs w' s' :
  exec wid w s outs w' s' → run_workflow wid w s = run_workflow wid w' s'.
Proof.
  induction 1 as [|w s r w1 s1 outs w2 s2 Hstep _ IH]; [done|].
  by rewrite (body_step_run _ _ _ _ _ _ Hstep).
Qed.

(** Every body runs, through finitely many steps, to a return or a throw. *)
Lemma exec_total wid w :
  ∀ s, ∃ outs w' s',
    exec wid w s outs w' s' ∧ body_step wid w' s' = None
    ∧ run_workflow wid w s = run_workflow wid w' s'.
Proof.
  induction w as [v|e|f input k IH|ms k IH]; intros s.
  - exists [], (Return v), s. repeat split. constructor.
  - exists [], (Raise e), s. repeat split. constructor.
  - destruct (ActivityFromFunction wid f input s) as [r s1] eqn:Hcall.
    destruct (IH r s1) as (outs & w' & s' & Hex & Hend & Hrun).
    exists (r :: outs), w', s'. repeat split; [|done|simpl; by rewrite Hcall].
    eapply exec_more; [|done]. simpl. by rewrite Hcall.
  - destruct (workflowSleep wid ms s) as [r s1] eqn:Hcall.
    destruct (IH r s1) as (outs & w' & s' & Hex & Hend & Hrun).
    exists (r :: outs), w', s'. repeat split; [|done|simpl; by rewrite Hcall].
    eapply exec_more; [|done]. simpl. by rewrite Hcall.
Qed.

(** ** The cursor *)

Lemma ensure_history_lookup wid s :
  ∃ hs, historyStore (ensure_history wid s) !! wid = Some hs
        ∧ context (ensure_history wid s) = context s.
Proof.
  unfold ensure_history. destruct (historyStore s !! wid) as [hs|] eqn:H.
  - by exists hs.
  - exists []. simpl. by rewrite lookup_insert_eq.
Qed.

Lemma ActivityFromFunction_ensure wid f input s :
  ActivityFromFunction wid f input s
  = ActivityFromFunction wid f input (ensure_history wid s).
Proof.
  destruct (ensure_history_lookup wid s) as (hs & Hhs & Hctx).
  unfold ActivityFromFunction, bind, modify.
  by rewrite (ensure_history_id _ _ _ Hhs), Hctx.
Qed.

Lemma workflowSleep_ensure wid ms s :
  workflowSleep wid ms s = workflowSleep wid ms (ensure_history wid s).
Proof.
  destruct (ensure_history_lookup wid s) as (hs & Hhs & Hctx).
  unfold workflowSleep, bind, modify.
  by rewrite (ensure_history_id _ _ _ Hhs), Hctx.
Qed.

Lemma mismatch_not_suspension a b : ¬ returns_or_suspends (Throw (mismatch a b)).
Proof. simpl. discriminate. Qed.

Lemma ActivityFromFunction_cursor wid f input s seq r s' :
  context s !! wid = Some seq →
  ActivityFromFunction wid f input s = (r, s') →
  returns_or_suspends r →
  context s' !! wid = Some (S seq).
Proof.
  intros Hctx Hcall Hr. rewrite ActivityFromFunction_ensure in Hcall.
  destruct (ensure_history_lookup wid s) as (hs & Hhs & Hc).
  rewrite <- Hc in Hctx.
  rewrite (ActivityFromFunction_eq _ _ _ _ _ _ Hctx Hhs) in Hcall.
  unfold cache_at in Hcall.
  repeat (case_match; simplify_eq/=); try done;
    unfold after_hit, after_miss; simpl; apply lookup_insert_eq.
Qed.

Lemma workflowSleep_cursor wid ms s seq r s' :
  context s !! wid = Some seq →
  workflowSleep wid ms s = (r, s') →
  returns_or_suspends r →
  context s' !! wid = Some (S seq).
Proof.
  intros Hctx Hcall Hr. rewrite workflowSleep_ensure in Hcall.
  destruct (ensure_history_lookup wid s) as (hs & Hhs & Hc).
  rewrite <- Hc in Hctx.
  rewrite (workflowSleep_eq _ _ _ _ _ Hctx Hhs) in Hcall.
  unfold cache_at in Hcall.
  repeat (case_match; simplify_eq/=); try done;
    unfold after_hit, after_sleep; simpl; apply lookup_insert_eq.
Qed.

Lemma exec_cursor wid w s outs w' s' :
  exec wid w s outs w' s' →
  Forall returns_or_suspends outs →
  ∀ seq, context s !! wid = Some seq →
  context s' !! wid = Some (seq + length outs)%nat.
Proof.
  induction 1 as [w s|w s r w1 s1 outs w2 s2 Hstep _ IH]; intros Hall seq Hctx.
  - simpl. by rewrite Nat.add_0_r.
  - apply Forall_cons in Hall as [Hr Hall]. simpl.
    replace (seq + S (length outs))%nat with (S seq + length outs)%nat by lia.
    apply IH; [done|].
    destruct w as [v|e|f input k|ms k]; simpl in Hstep; try done.
    + destruct (ActivityFromFunction wid f input s) as [r0 s0] eqn:Hcall.
      simplify_eq. by eapply ActivityFromFunction_cursor.
    + destruct (workflowSleep wid ms s) as [r0 s0] eqn:Hcall.
      simplify_eq. by eapply workflowSleep_cursor.
Qed.

Lemma exec_scenario_to_timer :
  exec "workflowId" scenario (in_flight [] 0)
    [Ok (VNum 2); Throw (SleepError "SLEEP")]
    (Raise (SleepError "SLEEP"))
    (snd (workflowSleep "workflowId" 5000
       (snd (ActivityFromFunction "workflowId" stepA (VNum 1) (in_flight [] 0))))).
Proof.
  apply exec_more with
    (w1 := CallSleep 5000 (uncaught (fun _ => single stepB (VNum 2))))
    (s1 := snd (ActivityFromFunction "workflowId" stepA (VNum 1) (in_flight [] 0))).
  { vm_compute. reflexivity. }
  apply exec_more with
    (w1 := Raise (SleepError "SLEEP"))
    (s1 := snd (workflowSleep "workflowId" 5000
       (snd (ActivityFromFunction "workflowId" stepA (VNum 1) (in_flight [] 0))))).
  { vm_compute. reflexivity. }
  apply exec_done.
Qed.

(** ** Writes to the log *)


(** * The claims *)

(** Closed goals about the sample logs: the log records the run, and its
    outputs are defined. *)
Ltac show_recorded :=
  repeat first
    [ apply recorded_nil
    | apply recorded_activity; [reflexivity|reflexivity|]
    | apply recorded_sleep; [reflexivity|reflexivity|] ].

Ltac show_defined :=
  repeat constructor; unfold defined_output; simpl; discriminate.




(** C2: a completed entry under another name makes the step fail with the
    name-mismatch error; nothing is returned in its place, and the cursor,
    the log and the activity are left alone.  A Resume whose body reaches,
    after the recorded steps, a step whose name differs from the completed
    entry at that position fails there with that error: the cursor stops at
    the position, nothing is invoked, written or saved. *)
Theorem name_mismatch_is_fatal wid s hs e :
  historyStore s !! wid = Some hs →
  e_status e = "completed" →
  (∀ seq f input,
     context s !! wid = Some seq → hs !! seq = Some e → e_name e ≠ fname f →
     ActivityFromFunction wid f input s = (Throw (mismatch (e_name e) (fname f)), s))
  ∧ (∀ seq ms,
       context s !! wid = Some seq → hs !! seq = Some e → e_name e ≠ "sleep" →
       workflowSleep wid ms s = (Throw (mismatch (e_name e) "sleep"), s))
  ∧ (∀ body hs1 hs3 w nm,
       hs = hs1 ++ e :: hs3 →
       recorded body hs1 w →
       Forall defined_output hs1 →
       awaits w nm →
       e_name e ≠ nm →
       fst (run_workflow wid body (set_context (<[wid := O]> (context s)) s))
       = Throw (mismatch (e_name e) nm)
       ∧ snd (ResumeWorkflow wid body s)
         = set_context (<[wid := length hs1]> (context s)) s).
Proof.
  intros Hhs Hst.
  assert (∀ s0 seq f input,
    historyStore s0 !! wid = Some hs →
    context s0 !! wid = Some seq → hs !! seq = Some e → e_name e ≠ fname f →
    ActivityFromFunction wid f input s0
    = (Throw (mismatch (e_name e) (fname f)), s0)) as Hact.
  { intros s0 seq f input Hhs0 Hctx He Hne.
    rewrite (ActivityFromFunction_eq _ _ _ _ _ _ Hctx Hhs0).
    by rewrite (cache_at_mismatch _ _ _ _ He Hst Hne). }
  assert (∀ s0 seq ms,
    historyStore s0 !! wid = Some hs →
    context s0 !! wid = Some seq → hs !! seq = Some e → e_name e ≠ "sleep" →
    workflowSleep wid ms s0 = (Throw (mismatch (e_name e) "sleep"), s0)) as Hsleep.
  { intros s0 seq ms Hhs0 Hctx He Hne.
    rewrite (workflowSleep_eq _ _ _ _ _ Hctx Hhs0).
    by rewrite (cache_at_mismatch _ _ _ _ He Hst Hne). }
  split; [|split].
  - intros seq f input. by apply Hact.
  - intros seq ms. by apply Hsleep.
  - intros body hs1 hs3 w nm -> Hrec Hdef Haw Hne.
    set (s0 := set_context (<[wid := O]> (context s)) s).
    set (s1 := set_context (<[wid := length hs1]> (context s)) s).
    assert (run_workflow wid body s0 = (Throw (mismatch (e_name e) nm), s1)) as Hrun.
    { rewrite (replay wid body hs1 w Hrec Hdef [] (e :: hs3) s0);
        [|done|by apply lookup_insert_eq].
      replace (set_context _ s0) with s1
        by (unfold s0, s1, set_context; simpl; by rewrite insert_insert_eq).
      assert (context s1 !! wid = Some (length hs1)) as Hctx1
        by apply lookup_insert_eq.
      assert ((hs1 ++ e :: hs3) !! length hs1 = Some e) as He1
        by by apply list_lookup_middle.
      destruct Haw as [(f & input & k & -> & ->)|(ms & k & -> & ->)]; simpl.
      - by rewrite (Hact s1 _ f input Hhs Hctx1 He1 Hne).
      - by rewrite (Hsleep s1 _ ms Hhs Hctx1 He1 Hne). }
    split; [by rewrite Hrun|].
    unfold ResumeWorkflow, bind, modify, drive. simpl. fold s0. by rewrite Hrun.
Qed.

Lemma name_mismatch_is_fatal_witness :
  ActivityFromFunction "workflowId" stepB (VNum 2) (in_flight [entryA] 0)
  = (Throw (JsError "Activity name mismatch: stepA !== stepB"),
     in_flight [entryA] 0)
  ∧ workflowSleep "workflowId" 5000 (in_flight [entryA] 0)
    = (Throw (JsError "Activity name mismatch: stepA !== sleep"),
       in_flight [entryA] 0)
  ∧ snd (ResumeWorkflow "workflowId" scenario (in_flight [entryA; entryB] 0))
    = in_flight [entryA; entryB] 1.
Proof.
  split; [|split].
  - refine (proj1 (name_mismatch_is_fatal "workflowId"
      (in_flight [entryA] 0) [entryA] entryA _ _) O stepB (VNum 2) _ _ _);
      try reflexivity.
    simpl. discriminate.
  - refine (proj1 (proj2 (name_mismatch_is_fatal "workflowId"
      (in_flight [entryA] 0) [entryA] entryA _ _)) O 5000 _ _ _);
      try reflexivity.
    simpl. discriminate.
  - refine (eq_trans (proj2 (proj2 (proj2 (name_mismatch_is_fatal "workflowId"
      (in_flight [entryA; entryB] 0) [entryA; entryB] entryB _ _))
      scenario [entryA] []
      (CallSleep 5000 (uncaught (fun _ => single stepB (VNum 2)))) "sleep"
      _ _ _ _ _)) _); try reflexivity.
    + show_recorded.
    + show_defined.
    + right. by eexists _, _.
    + simpl. discriminate.
Defined.







(** C5 (the code departs from it): on the failing activity [boom] the error
    reaches the body, which may recover from it, but the entry of the step
    is left with status "running"; no status "failed" is ever written. *)
Theorem failed_step_stays_running :
  ActivityFromFunction "workflowId" boom VNull (in_flight [] 0)
  = (Throw (JsError "boom"),
     mkState {[ "workflowId" := [mkEntry "workflowId" "boom" "running" VNull VUndef] ]}
       {[ "workflowId" := 1%nat ]} [] None None 1000 [("boom", VNull)])
  ∧ fst (run_workflow "workflowId"
           (CallActivity boom VNull (fun r =>
              match r with
              | Ok v => Return v
              | Throw _ => Return (VStr "recovered")
              end))
           (in_flight [] 0))
    = Ok (VStr "recovered").
Proof.
  split.
  - rewrite (failure_leaves_running "workflowId" boom VNull (in_flight [] 0) 0 []
      (JsError "boom")); reflexivity.
  - reflexivity.
Qed.

(** C6 (as amended): the driver writes the history file in one case only,
    when the body ends with [SleepError]; it then exits with code 0.  When
    the body returns, or throws anything else, the driver leaves the state
    as the body left it: no file is written, no status is recorded and the
    process is not ended.  The body itself never writes the file.  Start
    and Resume both hand the body to this driver. *)
Theorem driver_saves_on_suspension_only wid body s :
  let r := fst (run_workflow wid body s) in
  let s1 := snd (run_workflow wid body s) in
  file s1 = file s
  ∧ exited s1 = exited s
  ∧ snd (drive wid body s)
    = match r with
      | Throw (SleepError _) =>
          set_exited (Some 0)
            (set_file (Some (List.map entry_to_json <$> historyStore s1)) s1)
      | _ => s1
      end
  ∧ StartWorkflow body s
    = drive "workflowId" body
        (set_historyStore (<["workflowId" := []]> (historyStore s))
           (set_context (<["workflowId" := O]> (context s)) s))
  ∧ ResumeWorkflow wid body s
    = drive wid body (set_context (<[wid := O]> (context s)) s).
Proof.
  intros r s1. unfold r, s1, drive.
  destruct (run_workflow wid body s) as [r' s'] eqn:Hrun.
  destruct (run_workflow_frame _ _ _ _ _ Hrun) as (Hf & Hx & _). simpl.
  repeat split; try done. destruct r' as [v|[]]; done.
Qed.

(** C6 as stated fails: after a Start pass whose body returned, and after
    one whose body failed, the log is not empty and no file was written. *)
Lemma completion_and_failure_not_saved :
  (fst (run_workflow "workflowId" (single stepA (VNum 1)) (in_flight [] 0))
   = Ok (VNum 2)
   ∧ historyStore (snd (StartWorkflow (single stepA (VNum 1)) pristine))
       !! "workflowId" = Some [entryA]
   ∧ file (snd (StartWorkflow (single stepA (VNum 1)) pristine)) = None)
  ∧ (fst (run_workflow "workflowId" (single boom VNull) (in_flight [] 0))
     = Throw (JsError "boom")
     ∧ historyStore (snd (StartWorkflow (single boom VNull) pristine))
         !! "workflowId" = Some [running_entry "workflowId" "boom" VNull]
     ∧ file (snd (StartWorkflow (single boom VNull) pristine)) = None).
Proof. vm_compute. repeat split. Qed.




(** C8: a step call that returns or suspends moves the cursor by exactly
    one, whether it is an activity or the timer, a hit or a miss; so in a
    pass, which starts with the cursor at 0, after any number of such step
    calls the cursor equals the number of calls made. *)
Theorem cursor_counts_steps wid s seq :
  context s !! wid = Some seq →
  (∀ f input r s',
     ActivityFromFunction wid f input s = (r, s') →
     returns_or_suspends r →
     context s' !! wid = Some (S seq))
  ∧ (∀ ms r s',
       workflowSleep wid ms s = (r, s') →
       returns_or_suspends r →
       context s' !! wid = Some (S seq))
  ∧ (∀ w outs w' s',
       seq = O →
       exec wid w s outs w' s' →
       Forall returns_or_suspends outs →
       context s' !! wid = Some (length outs)).
Proof.
  intros Hctx. repeat split.
  - intros f input r s'. by apply ActivityFromFunction_cursor.
  - intros ms r s'. by apply workflowSleep_cursor.
  - intros w outs w' s' -> Hexec Hall.
    apply (exec_cursor _ _ _ _ _ _ Hexec Hall O Hctx).
Qed.

Lemma cursor_counts_steps_witness :
  context
    (snd (workflowSleep "workflowId" 5000
       (snd (ActivityFromFunction "workflowId" stepA (VNum 1) (in_flight [] 0)))))
  !! "workflowId" = Some 2%nat.
Proof.
  refine (proj2 (proj2 (cursor_counts_steps "workflowId" (in_flight [] 0) 0 eq_refl))
    scenario
    [Ok (VNum 2); Throw (SleepError "SLEEP")]
    (Raise (SleepError "SLEEP")) _ eq_refl exec_scenario_to_timer _).
  repeat constructor.
Defined.




(** C10: a completed entry under the step's own name whose output is
    [undefined] is read by the cache check exactly as a position past the
    end of the log is; the wrapper takes the miss path: it invokes the
    activity body again and appends a new entry at the end of the log. *)
Theorem undefined_output_is_a_miss wid f input s seq hs e :
  context s !! wid = Some seq →
  historyStore s !! wid = Some hs →
  hs !! seq = Some e →
  e_status e = "completed" →
  e_name e = fname f →
  e_output e = VUndef →
  cache_at hs seq (fname f) = cache_at hs (length hs) (fname f)
  ∧ ∃ s' e',
      ActivityFromFunction wid f input s = (fbody f input (calls s), s')
      ∧ calls s' = calls s ++ [(fname f, input)]
      ∧ historyStore s' !! wid = Some (hs ++ [e'])
      ∧ e_name e' = fname f ∧ e_input e' = input.
Proof.
  intros Hctx Hhs He Hst Hn Hout.
  assert (cache_at hs seq (fname f) = Ok VUndef) as Hmiss.
  { by rewrite (cache_at_hit _ _ _ _ He Hst Hn), Hout. }
  split; [by rewrite Hmiss, cache_at_end|].
  rewrite (ActivityFromFunction_eq _ _ _ _ _ _ Hctx Hhs), Hmiss. simpl.
  destruct (fbody f input (calls s)) as [r|err]; eexists _, _;
    (split; [reflexivity|]); simpl; by rewrite lookup_insert_eq.
Qed.

Lemma undefined_output_is_a_miss_witness :
  ∃ s' e',
    ActivityFromFunction "workflowId" quiet VNull (in_flight [entryQuiet] 0)
    = (Ok VUndef, s')
    ∧ calls s' = [("quiet", VNull)]
    ∧ historyStore s' !! "workflowId" = Some ([entryQuiet] ++ [e'])
    ∧ e_name e' = "quiet" ∧ e_input e' = VNull.
Proof.
  exact (proj2 (undefined_output_is_a_miss "workflowId" quiet VNull
    (in_flight [entryQuiet] 0) 0 [entryQuiet] entryQuiet
    eq_refl eq_refl eq_refl eq_refl eq_refl eq_refl)).
Defined.

(** * Further properties of the engine *)

(** ** The history file *)

Lemma jsval_deep_ind (P : jsval → Prop) :
  P VUndef → P VNull → (∀ b, P (VBool b)) → (∀ n, P (VNum n)) →
  (∀ s, P (VStr s)) → (∀ t, P (VDate t)) →
  (∀ items, Forall P items → P (VArr items)) →
  (∀ props, Forall (fun p => P p.2) props → P (VObj props)) →
  ∀ v, P v.
Proof.
  intros HU HN HB HZ HS HD HA HO. fix IH 1.
  intros [| |b|n|s|t|items|props];
    [apply HU|apply HN|apply HB|apply HZ|apply HS|apply HD|..].
  - apply HA. induction items as [|x xs IHxs]; constructor; [apply IH|apply IHxs].
  - apply HO. induction props as [|[k x] ps IHps]; constructor; [apply IH|apply IHps].
Qed.

(** Only [undefined] comes back [undefined]. *)
Lemma to_json_undefined v : is_undefined (to_json v) = is_undefined v.
Proof. destruct v as [| | | | |t| |]; simpl; try done. by destruct (Iso.valid t). Qed.

Lemma to_json_idempotent v : to_json (to_json v) = to_json v.
Proof.
  induction v as [| |b|n|s|t|items IH|props IH] using jsval_deep_ind; simpl; try done.
  - by destruct (Iso.valid t).
  - f_equal. induction IH as [|x xs Hx _ IHxs]; simpl; [done|].
    rewrite IHxs. f_equal.
    destruct (is_undefined x) eqn:Hu; simpl; [done|].
    by rewrite to_json_undefined, Hu.
  - f_equal. induction IH as [|[k x] ps Hx _ IHps]; simpl in *; [done|].
    destruct (is_undefined x) eqn:Hu; simpl; [done|].
    by rewrite to_json_undefined, Hu, Hx, IHps.
Qed.

Lemma entry_to_json_idempotent e : entry_to_json (entry_to_json e) = entry_to_json e.
Proof. unfold entry_to_json. simpl. by rewrite !to_json_idempotent. Qed.

Lemma normalised_to_json (m : gmap string (list entry)) :
  normalised (List.map entry_to_json <$> m).
Proof.
  unfold normalised. rewrite <- map_fmap_compose. apply map_fmap_ext.
  intros k hs _. simpl. rewrite map_map. apply map_ext. intros e.
  apply entry_to_json_idempotent.
Qed.

Lemma lookup_map_entry (f : entry → entry) (hs : list entry) (i : nat) :
  List.map f hs !! i = f <$> hs !! i.
Proof.
  revert i. induction hs as [|e hs IH]; intros [|i]; simpl; auto.
Qed.

Lemma cache_at_to_json hs seq name :
  cache_at (List.map entry_to_json hs) seq name
  = match cache_at hs seq name with
    | Ok v => Ok (to_json v)
    | Throw e => Throw e
    end.
Proof.
  unfold cache_at. rewrite lookup_map_entry.
  destruct (hs !! seq) as [e|]; simpl; [|done].
  destruct (String.eqb (e_status e) "completed"); [|done].
  by destruct (negb (String.eqb (e_name e) name)).
Qed.

(** X1: the history saved by one process is, in the next process, the
    history with every entry passed once through JSON; saving it again
    writes the same file, and a history that JSON leaves as it is comes
    back as it was. *)
Theorem history_file_round_trip s :
  historyStore (snd (loadHistoryFromFile (boot (snd (saveHistoryToFile s)))))
  = (List.map entry_to_json <$> historyStore s)
  ∧ file (snd (saveHistoryToFile
                 (snd (loadHistoryFromFile (boot (snd (saveHistoryToFile s)))))))
    = file (snd (saveHistoryToFile s))
  ∧ (normalised (historyStore s) →
     historyStore (snd (loadHistoryFromFile (boot (snd (saveHistoryToFile s)))))
     = historyStore s).
Proof.
  assert (historyStore (snd (loadHistoryFromFile (boot (snd (saveHistoryToFile s)))))
          = (List.map entry_to_json <$> historyStore s)) as Hload.
  { simpl. by rewrite (right_id_L ∅ (∪)). }
  split; [done|split].
  - simpl. rewrite (right_id_L ∅ (∪)). f_equal. apply normalised_to_json.
  - intros Hn. by rewrite Hload.
Qed.

Lemma history_file_round_trip_witness :
  historyStore (snd (loadHistoryFromFile (boot (snd (saveHistoryToFile
    (in_flight [entry_to_json entrySleep] 1))))))
  = historyStore (in_flight [entry_to_json entrySleep] 1).
Proof.
  refine (proj2 (proj2 (history_file_round_trip
    (in_flight [entry_to_json entrySleep] 1))) _).
  vm_compute. reflexivity.
Defined.

(** X2: for logs whose recorded outputs are built from [undefined], [null],
    booleans, integers, strings, [Date]s, arrays and plain objects (no
    functions, symbols or objects with a [toJSON] of their own), a trip
    through the history file changes no decision of the cache check: at
    every position the check fails on the name or returns after the reload
    as it did before, what it returns is the recorded output as JSON gives
    it back, and of these values [undefined] alone comes back as
    [undefined], so that a hit stays a hit and a miss a miss: a step call
    invokes its activity after the reload exactly when it did before. *)
Theorem reload_keeps_cache_decisions wid seq name s s' hs :
  historyStore s !! wid = Some hs →
  historyStore s' !! wid = Some (List.map entry_to_json hs) →
  fst (getCachedResult wid (Some seq) name s')
  = match fst (getCachedResult wid (Some seq) name s) with
    | Ok v => Ok (to_json v)
    | Throw e => Throw e
    end
  ∧ (∀ v, is_undefined (to_json v) = is_undefined v)
  ∧ (∀ f input,
       context s !! wid = Some seq → context s' !! wid = Some seq →
       calls s' = calls s →
       calls (snd (ActivityFromFunction wid f input s'))
       = calls (snd (ActivityFromFunction wid f input s))).
Proof.
  intros Hhs Hhs'. split; [|split; [apply to_json_undefined|]].
  - rewrite (getCachedResult_eq _ _ _ _ _ Hhs), (getCachedResult_eq _ _ _ _ _ Hhs').
    simpl. apply cache_at_to_json.
  - intros f input Hctx Hctx' Hcalls.
    rewrite (ActivityFromFunction_eq _ _ _ _ _ _ Hctx Hhs).
    rewrite (ActivityFromFunction_eq _ _ _ _ _ _ Hctx' Hhs').
    rewrite cache_at_to_json.
    destruct (cache_at hs seq (fname f)) as [v|e]; [|done].
    rewrite to_json_undefined, Hcalls.
    destruct (is_undefined v); simpl; [|done].
    destruct (fbody f input (calls s)) as [r|e]; simpl; congruence.
Qed.

Lemma reload_keeps_cache_decisions_witness :
  fst (getCachedResult "workflowId" (Some 0%nat) "stamp"
         (in_flight [entry_to_json (completed_entry "workflowId" "stamp" VNull (VDate 0))] 0))
  = Ok (VStr "1970-01-01T00:00:00.000Z").
Proof.
  refine (eq_trans (proj1 (reload_keeps_cache_decisions "workflowId" 0 "stamp"
    (in_flight [completed_entry "workflowId" "stamp" VNull (VDate 0)] 0)
    (in_flight [entry_to_json (completed_entry "workflowId" "stamp" VNull (VDate 0))] 0)
    [completed_entry "workflowId" "stamp" VNull (VDate 0)] _ _)) _);
    reflexivity.
Defined.

(** ** What a step call can do to the state *)

Lemma ActivityFromFunction_no_context wid f input s :
  context s !! wid = None →
  ActivityFromFunction wid f input s
  = (Throw (TypeError "Cannot read properties of undefined (reading 'seq')"),
     ensure_history wid s).
Proof. intros H. unfold ActivityFromFunction, bind, modify. by rewrite H. Qed.

Lemma workflowSleep_no_context wid ms s :
  context s !! wid = None →
  workflowSleep wid ms s
  = (Throw (TypeError "Cannot read properties of undefined (reading 'seq')"),
     ensure_history wid s).
Proof. intros H. unfold workflowSleep, bind, modify. by rewrite H. Qed.

Lemma cache_at_defined_inside hs seq name v :
  cache_at hs seq name = Ok v → is_undefined v = false → (seq < length hs)%nat.
Proof.
  unfold cache_at. intros H Hv. destruct (hs !! seq) as [e|] eqn:He.
  - by eapply lookup_lt_Some.
  - by simplify_eq.
Qed.

Lemma ActivityFromFunction_effect wid f input s :
  step_effect wid (ensure_history wid s) (snd (ActivityFromFunction wid f input s)).
Proof.
  rewrite ActivityFromFunction_ensure.
  destruct (ensure_history_lookup wid s) as (hs & Hhs & Hc).
  set (s0 := ensure_history wid s) in *.
  destruct (context s0 !! wid) as [seq|] eqn:Hctx.
  - rewrite (ActivityFromFunction_eq _ _ _ _ _ _ Hctx Hhs).
    destruct (cache_at hs seq (fname f)) as [v|e] eqn:Hcache; [|constructor].
    destruct (is_undefined v) eqn:Hv; simpl.
    + destruct (fbody f input (calls s0)); by eapply effect_miss.
    + eapply effect_hit; [done..|]. by eapply cache_at_defined_inside.
  - rewrite (ActivityFromFunction_no_context _ _ _ _ Hctx).
    simpl. rewrite (ensure_history_id _ _ _ Hhs). constructor.
Qed.

Lemma workflowSleep_effect wid ms s :
  step_effect wid (ensure_history wid s) (snd (workflowSleep wid ms s)).
Proof.
  rewrite workflowSleep_ensure.
  destruct (ensure_history_lookup wid s) as (hs & Hhs & Hc).
  set (s0 := ensure_history wid s) in *.
  destruct (context s0 !! wid) as [seq|] eqn:Hctx.
  - rewrite (workflowSleep_eq _ _ _ _ _ Hctx Hhs).
    destruct (cache_at hs seq "sleep") as [v|e] eqn:Hcache; [|constructor].
    destruct (is_undefined v) eqn:Hv; simpl.
    + by eapply effect_sleep.
    + eapply effect_hit; [done..|]. by eapply cache_at_defined_inside.
  - rewrite (workflowSleep_no_context _ _ _ Hctx).
    simpl. rewrite (ensure_history_id _ _ _ Hhs). constructor.
Qed.

(** A relation between states that every step call respects holds between
    the state a body starts in and the state it ends in. *)
Lemma run_workflow_respects wid (R : state → state → Prop) :
  (∀ s, R s s) →
  (∀ a b c, R a b → R b c → R a c) →
  (∀ s, R s (ensure_history wid s)) →
  (∀ s s', step_effect wid s s' → R s s') →
  ∀ w s, R s (snd (run_workflow wid w s)).
Proof.
  intros Hrefl Htrans Hens Hstep.
  induction w as [v|e|f input k IH|ms k IH]; intros s; simpl; try done.
  - pose proof (ActivityFromFunction_effect wid f input s) as Heff.
    destruct (ActivityFromFunction wid f input s) as [r s1]. simpl in Heff.
    eapply Htrans; [apply Hens|]. eapply Htrans; [by apply Hstep|apply IH].
  - pose proof (workflowSleep_effect wid ms s) as Heff.
    destruct (workflowSleep wid ms s) as [r s1]. simpl in Heff.
    eapply Htrans; [apply Hens|]. eapply Htrans; [by apply Hstep|apply IH].
Qed.

Lemma drive_memory wid body s :
  historyStore (snd (drive wid body s)) = historyStore (snd (run_workflow wid body s))
  ∧ context (snd (drive wid body s)) = context (snd (run_workflow wid body s))
  ∧ timers (snd (drive wid body s)) = timers (snd (run_workflow wid body s)).
Proof.
  unfold drive. destruct (run_workflow wid body s) as [[v|e] s']; [done|].
  unfold errorHandler. by destruct (is_SleepError e).
Qed.

(** ** Invariants of a pass *)

Lemma run_workflow_extends_log wid w s hs :
  historyStore s !! wid = Some hs →
  ∃ new, historyStore (snd (run_workflow wid w s)) !! wid = Some (hs ++ new).
Proof.
  revert hs.
  apply (run_workflow_respects wid (fun s s' =>
    ∀ hs, historyStore s !! wid = Some hs →
          ∃ new, historyStore s' !! wid = Some (hs ++ new))).
  - intros s0 hs H. exists []. by rewrite app_nil_r.
  - intros a b c Hab Hbc hs H.
    destruct (Hab hs H) as [n1 H1]. destruct (Hbc _ H1) as [n2 H2].
    exists (n1 ++ n2). by rewrite app_assoc.
  - intros s0 hs H. exists []. by rewrite (ensure_history_id _ _ _ H), app_nil_r.
  - intros s0 s1 [|seq hs0 Hc Hh Hlt|seq hs0 e c Hc Hh|seq hs0 ms Hc Hh] hs H;
      simplify_eq.
    + exists []. by rewrite app_nil_r.
    + exists []. by rewrite app_nil_r.
    + exists [e]. simpl. apply lookup_insert_eq.
    + eexists [_]. simpl. apply lookup_insert_eq.
Qed.

Lemma run_workflow_isolated wid wid' w s :
  wid' ≠ wid →
  historyStore (snd (run_workflow wid w s)) !! wid' = historyStore s !! wid'
  ∧ context (snd (run_workflow wid w s)) !! wid' = context s !! wid'
  ∧ ∃ ws, timers (snd (run_workflow wid w s)) = timers s ++ ws
          ∧ Forall (fun x => w_wid x = wid) ws.
Proof.
  intros Hne.
  apply (run_workflow_respects wid (fun s s' =>
    historyStore s' !! wid' = historyStore s !! wid'
    ∧ context s' !! wid' = context s !! wid'
    ∧ ∃ ws, timers s' = timers s ++ ws ∧ Forall (fun x => w_wid x = wid) ws)).
  - intros s0. repeat split. exists []. by rewrite app_nil_r.
  - intros a b c (H1 & H2 & ws1 & H3 & H4) (H5 & H6 & ws2 & H7 & H8).
    rewrite H5, H1, H6, H2, H7, H3. repeat split.
    exists (ws1 ++ ws2). rewrite app_assoc. split; [done|by apply Forall_app].
  - intros s0. unfold ensure_history.
    destruct (historyStore s0 !! wid); simpl; rewrite ?lookup_insert_ne by done;
      repeat split; exists []; by rewrite app_nil_r.
  - intros s0 s1 [|seq hs0 Hc Hh Hlt|seq hs0 e c Hc Hh|seq hs0 ms Hc Hh]; simpl;
      rewrite ?lookup_insert_ne by done; repeat split;
      try (exists []; by rewrite app_nil_r).
    eexists [_]. split; [done|]. by repeat constructor.
Qed.

Lemma run_workflow_cursor wid w s :
  cursor_within_log wid s → cursor_within_log wid (snd (run_workflow wid w s)).
Proof.
  apply (run_workflow_respects wid (fun s s' =>
    cursor_within_log wid s → cursor_within_log wid s')); try done.
  - auto.
  - intros s0 (seq & Hc & Hle). exists seq.
    unfold log_of, ensure_history in *.
    destruct (historyStore s0 !! wid) eqn:Hh; simpl; [by rewrite Hh|].
    rewrite lookup_insert_eq. simpl in *. split; [done|lia].
  - unfold cursor_within_log, log_of.
    intros s0 s1 [|seq hs0 Hc Hh Hlt|seq hs0 e c Hc Hh|seq hs0 ms Hc Hh]
      (seq0 & Hc0 & Hle); simplify_eq; simpl; rewrite ?Hh in *; simpl in *.
    + by exists seq0.
    + exists (S seq). rewrite lookup_insert_eq. split; [done|lia].
    + exists (S seq). rewrite !lookup_insert_eq. simpl. rewrite length_app. simpl.
      split; [done|lia].
    + exists (S seq). rewrite !lookup_insert_eq. simpl. rewrite length_app. simpl.
      split; [done|lia].
Qed.

Lemma resume_extends_log wid body s hs :
  historyStore s !! wid = Some hs →
  (∃ new, historyStore (snd (run_workflow wid body s)) !! wid = Some (hs ++ new))
  ∧ (∃ new, historyStore (snd (ResumeWorkflow wid body s)) !! wid = Some (hs ++ new)).
Proof.
  intros Hhs. split; [by apply run_workflow_extends_log|].
  unfold ResumeWorkflow, bind, modify. simpl.
  rewrite (proj1 (drive_memory _ _ _)). by apply run_workflow_extends_log.
Qed.

(** X3: a pass in which the objects passed to the steps, and those the
    steps return, are left as they are (by every body and activity here)
    only appends to the log of its workflow, whatever steps the body calls
    and whatever it catches: the entries the log held when the body (or a
    Resume) began are
    still its first entries, unchanged and in the same order, when it
    ends. *)
Theorem log_is_append_only wid body s hs :
  historyStore s !! wid = Some hs →
  (∃ new, historyStore (snd (run_workflow wid body s)) !! wid = Some (hs ++ new))
  ∧ (∃ new, historyStore (snd (ResumeWorkflow wid body s)) !! wid = Some (hs ++ new)).
Proof.
  intros Hhs. split; [by apply run_workflow_extends_log|].
  unfold ResumeWorkflow, bind, modify. simpl.
  destruct (drive_memory wid body (set_context (<[wid := O]> (context s)) s))
    as (-> & _).
  by apply run_workflow_extends_log.
Qed.

Lemma log_is_append_only_witness :
  ∃ new,
    historyStore (snd (ResumeWorkflow "workflowId" scenario
                         (in_flight [entryA; entrySleep] 0))) !! "workflowId"
    = Some ([entryA; entrySleep] ++ new).
Proof.
  exact (proj2 (log_is_append_only "workflowId" scenario
    (in_flight [entryA; entrySleep] 0) [entryA; entrySleep] eq_refl)).
Defined.

(** X4: a pass of one workflow leaves every other workflow alone: their
    logs and cursors are as before, and every wake-up the pass registers is
    for the workflow being run. *)
Theorem other_workflows_untouched wid wid' body s :
  wid' ≠ wid →
  historyStore (snd (ResumeWorkflow wid body s)) !! wid' = historyStore s !! wid'
  ∧ context (snd (ResumeWorkflow wid body s)) !! wid' = context s !! wid'
  ∧ ∃ ws, timers (snd (ResumeWorkflow wid body s)) = timers s ++ ws
          ∧ Forall (fun x => w_wid x = wid) ws.
Proof.
  intros Hne. unfold ResumeWorkflow, bind, modify. simpl.
  destruct (drive_memory wid body
    (set_context (<[wid := O]> (context s)) s)) as (-> & -> & ->).
  destruct (run_workflow_isolated wid wid' body
    (set_context (<[wid := O]> (context s)) s) Hne) as (-> & -> & H).
  simpl. by rewrite lookup_insert_ne.
Qed.

Lemma other_workflows_untouched_witness :
  historyStore (snd (ResumeWorkflow "other" scenario (in_flight [entryA] 1)))
    !! "workflowId" = Some [entryA]
  ∧ context (snd (ResumeWorkflow "other" scenario (in_flight [entryA] 1)))
      !! "workflowId" = Some 1%nat.
Proof.
  destruct (other_workflows_untouched "other" "workflowId" scenario
    (in_flight [entryA] 1)) as (H1 & H2 & _); [discriminate|].
  split; [exact H1|exact H2].
Defined.

(** X5: from the moment Start or Resume sets the cursor to 0, the cursor is
    never past the end of the log: whatever the body, when the pass ends
    the cursor is at most the length of the log. *)
Theorem cursor_stays_within_log wid body s :
  cursor_within_log wid (snd (ResumeWorkflow wid body s))
  ∧ cursor_within_log "workflowId" (snd (StartWorkflow body s)).
Proof.
  split.
  - unfold ResumeWorkflow, bind, modify. simpl.
    unfold cursor_within_log, log_of.
    destruct (drive_memory wid body
      (set_context (<[wid := O]> (context s)) s)) as (-> & -> & _).
    apply run_workflow_cursor. exists O. simpl. rewrite lookup_insert_eq.
    split; [done|lia].
  - unfold StartWorkflow, bind, modify. simpl.
    unfold cursor_within_log, log_of.
    match goal with |- context [drive _ _ ?s0] =>
      destruct (drive_memory "workflowId" body s0) as (-> & -> & _);
      apply (run_workflow_cursor "workflowId" body s0)
    end.
    exists O. simpl. rewrite lookup_insert_eq. split; [done|lia].
Qed.

Lemma cache_at_unfinished hs seq name e :
  hs !! seq = Some e → e_status e ≠ "completed" → cache_at hs seq name = Ok VUndef.
Proof.
  intros He Hst. unfold cache_at. rewrite He.
  apply String.eqb_neq in Hst. by rewrite Hst.
Qed.

(** X6: an entry whose status is not "completed" (the entry of an activity
    that failed) is never repaired.  A step call at its position invokes the
    activity, or re-arms the timer, and appends the new entry at the end of
    the log; and no pass changes the entry, so at every later replay the
    step at that position runs again. *)
Theorem unfinished_entry_is_never_repaired wid s seq hs e :
  context s !! wid = Some seq →
  historyStore s !! wid = Some hs →
  hs !! seq = Some e →
  e_status e ≠ "completed" →
  (∀ f input,
     calls (snd (ActivityFromFunction wid f input s)) = calls s ++ [(fname f, input)]
     ∧ ∃ e', historyStore (snd (ActivityFromFunction wid f input s)) !! wid
             = Some (hs ++ [e']))
  ∧ (∀ ms,
       fst (workflowSleep wid ms s) = Throw (SleepError "SLEEP")
       ∧ ∃ e', historyStore (snd (workflowSleep wid ms s)) !! wid = Some (hs ++ [e']))
  ∧ (∀ body, ∃ hs',
       historyStore (snd (ResumeWorkflow wid body s)) !! wid = Some hs'
       ∧ hs' !! seq = Some e).
Proof.
  intros Hctx Hhs He Hst. split; [|split].
  - intros f input. rewrite (ActivityFromFunction_eq _ _ _ _ _ _ Hctx Hhs).
    rewrite (cache_at_unfinished _ _ _ _ He Hst). simpl.
    destruct (fbody f input (calls s)); simpl; (split; [done|]);
      eexists; apply lookup_insert_eq.
  - intros ms. rewrite (workflowSleep_eq _ _ _ _ _ Hctx Hhs).
    rewrite (cache_at_unfinished _ _ _ _ He Hst). simpl. split; [done|].
    eexists. apply lookup_insert_eq.
  - intros body.
    destruct (proj2 (resume_extends_log wid body s hs Hhs)) as [new Hnew].
    exists (hs ++ new). split; [done|]. by apply lookup_app_l_Some.
Qed.

Lemma unfinished_entry_is_never_repaired_witness :
  calls (snd (ActivityFromFunction "workflowId" boom VNull
                (in_flight [running_entry "workflowId" "boom" VNull] 0)))
  = [("boom", VNull)]
  ∧ ∃ e', historyStore (snd (ActivityFromFunction "workflowId" boom VNull
                               (in_flight [running_entry "workflowId" "boom" VNull] 0)))
            !! "workflowId"
          = Some ([running_entry "workflowId" "boom" VNull] ++ [e']).
Proof.
  refine (proj1 (unfinished_entry_is_never_repaired "workflowId"
    (in_flight [running_entry "workflowId" "boom" VNull] 0) 0
    [running_entry "workflowId" "boom" VNull]
    (running_entry "workflowId" "boom" VNull) eq_refl eq_refl eq_refl _)
    boom VNull).
  simpl. discriminate.
Defined.

(** X7: a step call for a workflow that has no context (one that was never
    started or resumed in this process), under an id that is not the name
    of a property of [Object.prototype], fails with a TypeError; the
    activity is not invoked and no wake-up is registered, but an empty log
    has been created for the workflow by then. *)
Theorem step_without_context wid s :
  inherited_name wid = false →
  context s !! wid = None →
  historyStore s !! wid = None →
  (∀ f input,
     ∃ msg, ActivityFromFunction wid f input s
            = (Throw (TypeError msg),
               set_historyStore (<[wid := []]> (historyStore s)) s))
  ∧ (∀ ms,
       ∃ msg, workflowSleep wid ms s
              = (Throw (TypeError msg),
                 set_historyStore (<[wid := []]> (historyStore s)) s)).
Proof.
  intros _ Hctx Hhs. split.
  - intros f input. eexists.
    rewrite (ActivityFromFunction_no_context _ _ _ _ Hctx).
    unfold ensure_history. by rewrite Hhs.
  - intros ms. eexists.
    rewrite (workflowSleep_no_context _ _ _ Hctx).
    unfold ensure_history. by rewrite Hhs.
Qed.

Lemma step_without_context_witness :
  ∃ msg, ActivityFromFunction "workflowId" stepA (VNum 1) pristine
         = (Throw (TypeError msg),
            set_historyStore (<["workflowId" := []]> (historyStore pristine)) pristine).
Proof.
  exact (proj1 (step_without_context "workflowId" pristine eq_refl eq_refl eq_refl)
    stepA (VNum 1)).
Defined.

(** ** A pass, from the saved log to the next timer *)

Lemma live_until_timer wid w :
  steady w →
  ∀ s hs,
    historyStore s !! wid = Some hs →
    context s !! wid = Some (length hs) →
    ∃ new r s',
      run_workflow wid w s = (r, s')
      ∧ historyStore s' = <[wid := hs ++ new]> (historyStore s)
      ∧ exited s' = exited s ∧ file s' = file s
      ∧ Forall defined_output new ∧ Forall stable_output new
      ∧ calls s' = (until_timer w (calls s)).1
      ∧ match (until_timer w (calls s)).2 with
        | Some (ms, w2) =>
            r = Throw (SleepError "SLEEP")
            ∧ new ≠ []
            ∧ recorded w (List.map entry_to_json new) w2
            ∧ steady w2
            ∧ timers s' = timers s ++ [mkWake wid (clock s) ms]
        | None =>
            r = (uninterrupted w (calls s)).2 ∧ timers s' = timers s
        end.
Proof.
  induction 1 as [v|e|f input k Hrel _ IH|ms k Hk Hst IH]; intros s hs Hhs Hctx.
  - exists [], (Ok v), s. rewrite app_nil_r, (insert_id _ _ _ Hhs). simpl. auto 10.
  - exists [], (Throw e), s. rewrite app_nil_r, (insert_id _ _ _ Hhs). simpl. auto 10.
  - destruct (Hrel input (calls s)) as (v & Hv & Hdef & Hstab).
    set (e := completed_entry wid (fname f) input v).
    set (s1 := after_miss wid (length hs) hs e (fname f, input) s).
    assert (run_workflow wid (CallActivity f input k) s
            = run_workflow wid (k (Ok v)) s1) as Hrun.
    { simpl. rewrite (ActivityFromFunction_eq _ _ _ _ _ _ Hctx Hhs).
      rewrite cache_at_end by done. simpl. by rewrite Hv. }
    destruct (IH v Hdef Hstab s1 (hs ++ [e]))
      as (new & r & s' & Hr & Hh & Hx & Hf & Hd & Hs & Hcalls & Hcase).
    { unfold s1, after_miss. simpl. by rewrite lookup_insert_eq. }
    { unfold s1, after_miss. simpl. rewrite lookup_insert_eq, length_app. simpl.
      f_equal. lia. }
    exists (e :: new), r, s'. rewrite Hrun, Hr, Hh.
    unfold s1, after_miss in *. simpl in *. rewrite !insert_insert_eq.
    rewrite <- app_assoc, Hv. simpl.
    repeat split; try done.
    + by constructor.
    + by constructor.
    + revert Hcase. unfold call.
      match goal with |- context [match ?x with _ => _ end] =>
        destruct x as [[ms w2]|] end; [|done].
      intros (-> & _ & Hrec & Hst2 & Ht). repeat split; try done.
      apply recorded_activity; try done. simpl. by rewrite Hstab.
  - set (s1 := after_sleep wid (length hs) hs ms s).
    exists [timer_entry wid (clock s) ms], (Throw (SleepError "SLEEP")), s1.
    simpl. repeat split; try done.
    + rewrite (workflowSleep_eq _ _ _ _ _ Hctx Hhs).
      rewrite cache_at_end by done. simpl. by rewrite Hk.
    + repeat constructor. unfold defined_output. simpl. discriminate.
    + repeat constructor.
    + apply recorded_sleep; try done. constructor.
Qed.

(** The driver over a log that records the run so far. *)
Lemma drive_until_timer body hs w s :
  historyStore s = {[ "workflowId" := hs ]} →
  context s !! "workflowId" = Some O →
  recorded body hs w →
  Forall defined_output hs → Forall stable_output hs →
  steady w →
  calls (snd (drive "workflowId" body s)) = (until_timer w (calls s)).1
  ∧ match (until_timer w (calls s)).2 with
    | Some (ms, w2) =>
        (∃ new, new ≠ []
           ∧ checkpoint body (List.map entry_to_json (hs ++ new)) w2
               (snd (drive "workflowId" body s)))
        ∧ exited (snd (drive "workflowId" body s)) = Some 0
        ∧ timers (snd (drive "workflowId" body s))
          = timers s ++ [mkWake "workflowId" (clock s) ms]
    | None =>
        settled (uninterrupted w (calls s)).2 →
        file (snd (drive "workflowId" body s)) = file s
        ∧ exited (snd (drive "workflowId" body s)) = exited s
        ∧ timers (snd (drive "workflowId" body s)) = timers s
    end.
Proof.
  intros Hstore Hctx Hrec Hdef Hstab Hsteady.
  assert (historyStore s !! "workflowId" = Some hs) as Hhs.
  { rewrite Hstore. apply lookup_singleton_eq. }
  pose proof (replay_from_start "workflowId" body hs w s Hrec Hdef Hhs Hctx) as Hreplay.
  set (s1 := set_context (<["workflowId" := length hs]> (context s)) s) in *.
  destruct (live_until_timer "workflowId" w Hsteady s1 hs)
    as (new & r & s' & Hr & Hh & Hx & Hf & Hd & Hs & Hcalls & Hcase).
  { done. }
  { unfold s1. simpl. apply lookup_insert_eq. }
  rewrite Hr in Hreplay. split; [by rewrite drive_calls, Hreplay|].
  revert Hcase. change (calls s1) with (calls s). change (timers s1) with (timers s).
  change (clock s1) with (clock s).
  destruct (until_timer w (calls s)).2 as [[ms w2]|].
  - intros (-> & Hne & Hrec2 & Hst2 & Ht).
    rewrite (drive_suspended _ _ _ _ _ Hreplay). simpl. repeat split; try done.
    exists new. split; [done|].
    destruct (outputs_to_json _ Hdef Hstab) as [Hd1 Hs1].
    destruct (outputs_to_json _ Hd Hs) as [Hd2 Hs2].
    unfold checkpoint. simpl. rewrite Hh. unfold s1. simpl. rewrite Hstore.
    rewrite insert_singleton_eq, map_fmap_singleton, map_app.
    repeat split; try done.
    + eapply recorded_app; [by apply recorded_to_json|done].
    + by apply Forall_app.
    + by apply Forall_app.
  - intros [-> Ht] Hsettled. unfold drive. rewrite Hreplay.
    destruct (uninterrupted w (calls s)).2 as [v|e]; simpl; [done|].
    simpl in Hsettled. unfold errorHandler. rewrite Hsettled. done.
Qed.

Lemma pass_until_timer body hs w t s :
  checkpoint body hs w s →
  calls (pass body t s) = (until_timer w (calls s)).1
  ∧ match (until_timer w (calls s)).2 with
    | Some (ms, w2) =>
        (∃ new, new ≠ []
           ∧ checkpoint body (List.map entry_to_json (hs ++ new)) w2 (pass body t s))
        ∧ exited (pass body t s) = Some 0
        ∧ timers (pass body t s) = [mkWake "workflowId" t ms]
    | None =>
        settled (uninterrupted w (calls s)).2 →
        file (pass body t s) = file s
        ∧ exited (pass body t s) = None
        ∧ timers (pass body t s) = []
    end.
Proof.
  intros (Hfile & Hrec & Hdef & Hstab & Hsteady).
  unfold pass, main, loadHistoryFromFile, bind, modify.
  simpl. rewrite Hfile. simpl.
  rewrite (right_id_L ∅ (∪)), lookup_singleton_eq.
  unfold ResumeWorkflow, bind, modify. simpl.
  match goal with |- context [drive _ _ ?s0] => set (s1 := s0) end.
  pose proof (drive_until_timer body hs w s1) as H. simpl in H.
  destruct (drive "workflowId" body s1) as [u s2] eqn:Hdrive. simpl in *.
  rewrite Hfile in H. apply H; done.
Qed.

Lemma start_until_timer body t s :
  file s = None →
  steady body →
  calls (pass body t s) = (until_timer body (calls s)).1
  ∧ match (until_timer body (calls s)).2 with
    | Some (ms, w2) =>
        (∃ new, new ≠ []
           ∧ checkpoint body (List.map entry_to_json new) w2 (pass body t s))
        ∧ exited (pass body t s) = Some 0
        ∧ timers (pass body t s) = [mkWake "workflowId" t ms]
    | None =>
        settled (uninterrupted body (calls s)).2 →
        file (pass body t s) = None
        ∧ exited (pass body t s) = None
        ∧ timers (pass body t s) = []
    end.
Proof.
  intros Hfile Hsteady. unfold pass, main, loadHistoryFromFile, bind, modify.
  simpl. rewrite Hfile. simpl. rewrite lookup_empty.
  unfold StartWorkflow, bind, modify. simpl.
  match goal with |- context [drive _ _ ?s0] => set (s1 := s0) end.
  pose proof (drive_until_timer body [] body s1) as H. simpl in H.
  destruct (drive "workflowId" body s1) as [u s2] eqn:Hdrive. simpl in *.
  rewrite Hfile in H. apply H; try done. constructor.
Qed.




(** ** The workflow of the source, run again and again *)

Lemma notify_runs ts :
  ∀ fuel i s hs,
    checkpoint NotifyWorkflow hs (NotifyWorkflow_from fuel i) s →
    calls (passes NotifyWorkflow ts s)
    = calls s ++ take (length ts) (notify_messages fuel i).
Proof.
  induction ts as [|t ts IH]; intros fuel i s hs Hcp; simpl.
  { by rewrite take_0, app_nil_r. }
  destruct (pass_until_timer NotifyWorkflow hs _ t s Hcp) as [Hcalls Hcase].
  assert (∀ w, w = Return VUndef →
    checkpoint NotifyWorkflow hs w s →
    calls (pass NotifyWorkflow t s) = (until_timer w (calls s)).1 →
    match (until_timer w (calls s)).2 with
    | Some (ms, w2) => True
    | None =>
        settled (uninterrupted w (calls s)).2 →
        file (pass NotifyWorkflow t s) = file s
        ∧ exited (pass NotifyWorkflow t s) = None
        ∧ timers (pass NotifyWorkflow t s) = []
    end →
    checkpoint NotifyWorkflow hs w (pass NotifyWorkflow t s)
    ∧ calls (pass NotifyWorkflow t s) = calls s) as Hdone.
  { intros w -> (Hf & Hrest) Hc Hn. simpl in *.
    destruct (Hn I) as (Hf' & _). split; [|done].
    split; [by rewrite Hf'|done]. }
  destruct fuel as [|fuel]; simpl in *.
  - destruct (Hdone _ eq_refl Hcp Hcalls) as [Hcp' Hc'].
    { simpl. apply Hcase. }
    rewrite (IH O i _ hs Hcp'), Hc'. simpl. by rewrite take_nil.
  - destruct (i <? 3) eqn:Hi; simpl in *.
    + destruct Hcase as ((new & _ & Hcp') & _).
      rewrite (IH fuel (i + 1) _ _ Hcp'), Hcalls. by rewrite <- app_assoc.
    + destruct (Hdone _ eq_refl Hcp Hcalls) as [Hcp' Hc'].
      { simpl. apply Hcase. }
      assert (checkpoint NotifyWorkflow hs (NotifyWorkflow_from (S fuel) i)
                (pass NotifyWorkflow t s)) as Hcp2.
      { simpl. by rewrite Hi. }
      rewrite (IH (S fuel) i _ hs Hcp2), Hc'. simpl. rewrite Hi. by rewrite take_nil.
Qed.

(** X9: however many times, and whenever, the program is run from a state
    without a history file, its workflow sends "message 0", "message 1" and
    "message 2" in this order, one more message on each of the first three
    runs and nothing on any later run. *)
Theorem notify_sends_each_message_once ts s :
  file s = None →
  calls (passes NotifyWorkflow ts s)
  = calls s
    ++ take (length ts)
         [("SendSlackMessage", VStr "message 0");
          ("SendSlackMessage", VStr "message 1");
          ("SendSlackMessage", VStr "message 2")].
Proof.
  intros Hfile. destruct ts as [|t ts]; simpl.
  { by rewrite app_nil_r. }
  destruct (start_until_timer NotifyWorkflow t s Hfile
              (steady_NotifyWorkflow_from 4 0)) as [Hcalls Hcase].
  simpl in Hcalls, Hcase. destruct Hcase as ((new & _ & Hcp) & _).
  rewrite (notify_runs ts 3 1 _ _ Hcp), Hcalls. by rewrite <- app_assoc.
Qed.

Lemma notify_sends_each_message_once_witness :
  calls (passes NotifyWorkflow [1000; 5000; 9000; 13000; 17000; 21000] pristine)
  = [("SendSlackMessage", VStr "message 0");
     ("SendSlackMessage", VStr "message 1");
     ("SendSlackMessage", VStr "message 2")].
Proof.
  exact (notify_sends_each_message_once
    [1000; 5000; 9000; 13000; 17000; 21000] pristine eq_refl).
Defined.

(** ** The history file over the runs of the program *)

Lemma drive_file wid body s :
  file (snd (drive wid body s)) = file s
  ∨ file (snd (drive wid body s))
    = Some (List.map entry_to_json <$> historyStore (snd (run_workflow wid body s))).
Proof.
  unfold drive. destruct (run_workflow wid body s) as [r s'] eqn:Hrun.
  destruct (run_workflow_frame _ _ _ _ _ Hrun) as (Hf & _).
  destruct r as [v|e]; simpl; [by left|].
  unfold errorHandler. destruct (is_SleepError e); simpl; [by right|by left].
Qed.

Lemma normalised_lookup m k hs :
  normalised m → m !! k = Some hs → List.map entry_to_json hs = hs.
Proof.
  intros Hn Hk. unfold normalised in Hn. apply (f_equal (.!! k)) in Hn.
  rewrite lookup_fmap, Hk in Hn. simpl in Hn. congruence.
Qed.

(** X10: history.json only ever grows when the objects passed to the
    steps, and those the steps return, are left as they are (by every body
    and activity here).  Once written, the file is in the form JSON gives
    back unchanged, and a further run of the program, whatever steps the
    body calls and whatever it catches, leaves in it every log it held,
    entry for entry, with new entries at most added at the end. *)
Theorem history_file_only_grows body t s m :
  file s = Some m →
  normalised m →
  ∃ m', file (pass body t s) = Some m' ∧ normalised m'
        ∧ ∀ k hs, m !! k = Some hs → ∃ new, m' !! k = Some (hs ++ new).
Proof.
  intros Hfile Hnorm.
  assert (∀ wid s1,
    file s1 = Some m →
    (∀ k hs, m !! k = Some hs → ∃ new0, historyStore s1 !! k = Some (hs ++ new0)
                                          ∧ (k ≠ wid → new0 = [])) →
    (∀ k hs, m !! k = Some hs → k = wid → historyStore s1 !! k = Some hs) →
    ∃ m', file (snd (drive wid body s1)) = Some m' ∧ normalised m'
          ∧ ∀ k hs, m !! k = Some hs → ∃ new, m' !! k = Some (hs ++ new)) as Hdrive.
  { intros wid s1 Hf1 Hkeep Hwid.
    destruct (drive_file wid body s1) as [-> | ->].
    - exists m. rewrite Hf1. repeat split; [done|].
      intros k hs Hk. exists []. by rewrite app_nil_r.
    - eexists. split; [done|]. split; [apply normalised_to_json|].
      intros k hs Hk. rewrite lookup_fmap.
      destruct (decide (k = wid)) as [->|Hne].
      + destruct (run_workflow_extends_log wid body s1 hs (Hwid _ _ Hk eq_refl))
          as [new ->].
        exists (List.map entry_to_json new). simpl. rewrite map_app.
        by rewrite (normalised_lookup _ _ _ Hnorm Hk).
      + destruct (run_workflow_isolated wid k body s1 Hne) as (-> & _).
        destruct (Hkeep k hs Hk) as (new0 & -> & Hnil).
        rewrite (Hnil Hne), app_nil_r. simpl. exists [].
        by rewrite app_nil_r, (normalised_lookup _ _ _ Hnorm Hk). }
  unfold pass, main, loadHistoryFromFile, bind, modify. simpl.
  rewrite Hfile. simpl. rewrite (right_id_L ∅ (∪)).
  destruct (m !! "workflowId") as [hs0|] eqn:Hwf.
  - unfold ResumeWorkflow, bind, modify. simpl. apply Hdrive; simpl; [done|..].
    + intros k hs Hk. exists []. by rewrite app_nil_r.
    + by intros k hs Hk ->.
  - unfold StartWorkflow, bind, modify. simpl. apply Hdrive; simpl; [done|..].
    + intros k hs Hk. exists []. rewrite app_nil_r. split; [|done].
      rewrite lookup_insert_ne; [done|]. intros <-. congruence.
    + intros k hs Hk ->. congruence.
Qed.

Lemma history_file_only_grows_witness :
  ∃ m', file (pass scenario 7000 (pass scenario 1000 pristine)) = Some m'
        ∧ normalised m'
        ∧ ∀ k hs,
            ({[ "workflowId" := List.map entry_to_json [entryA; entrySleep] ]}
               : gmap string (list entry)) !! k = Some hs →
            ∃ new, m' !! k = Some (hs ++ new).
Proof.
  refine (history_file_only_grows scenario 7000 (pass scenario 1000 pristine)
    {[ "workflowId" := List.map entry_to_json [entryA; entrySleep] ]} eq_refl _).
  unfold normalised. rewrite map_fmap_singleton. reflexivity.
Defined.

(** ** Time and recorded inputs decide nothing *)




















(** ** Bodies that end after their last timer *)

Lemma checkpoint_sleep_then_B :
  checkpoint sleep_then_B [entry_to_json (timer_entry "workflowId" 1000 1000)]
    (single stepB (VNum 2)) (pass sleep_then_B 1000 pristine).
Proof.
  repeat split.
  - show_recorded.
  - show_defined.
  - repeat constructor.
  - apply steady_single, reliable_stepB.
Qed.

(** X12: nothing records that a body has ended.  When the body settles
    without reaching another timer, the run leaves the history file as it
    found it, so the next run replays the same log and invokes the same
    trailing activities again; and a body that settles before any timer
    leaves no file at all, so the next run starts it afresh. *)
Theorem settled_body_runs_again body t s :
  (∀ hs w,
     checkpoint body hs w s →
     (until_timer w (calls s)).2 = None →
     settled (uninterrupted w (calls s)).2 →
     checkpoint body hs w (pass body t s)
     ∧ calls (pass body t s) = (until_timer w (calls s)).1)
  ∧ (file s = None →
     steady body →
     (until_timer body (calls s)).2 = None →
     settled (uninterrupted body (calls s)).2 →
     file (pass body t s) = None
     ∧ calls (pass body t s) = (until_timer body (calls s)).1).
Proof.
  split.
  - intros hs w Hcp Hnone Hset.
    destruct (pass_until_timer body hs w t s Hcp) as [Hcalls Hcase].
    rewrite Hnone in Hcase. destruct (Hcase Hset) as (Hf & _).
    split; [|done]. destruct Hcp as (Hfile & Hrest). split; [by rewrite Hf|done].
  - intros Hfile Hsteady Hnone Hset.
    destruct (start_until_timer body t s Hfile Hsteady) as [Hcalls Hcase].
    rewrite Hnone in Hcase. by destruct (Hcase Hset) as (Hf & _).
Qed.

Lemma settled_body_runs_again_witness :
  (checkpoint sleep_then_B [entry_to_json (timer_entry "workflowId" 1000 1000)]
     (single stepB (VNum 2)) (pass sleep_then_B 3000 (pass sleep_then_B 1000 pristine))
   ∧ calls (pass sleep_then_B 3000 (pass sleep_then_B 1000 pristine))
     = [("stepB", VNum 2)])
  ∧ (file (pass (single stepA (VNum 1)) 1000 pristine) = None
     ∧ calls (pass (single stepA (VNum 1)) 1000 pristine) = [("stepA", VNum 1)]).
Proof.
  split.
  - exact (proj1 (settled_body_runs_again sleep_then_B 3000
      (pass sleep_then_B 1000 pristine)) _ _ checkpoint_sleep_then_B eq_refl I).
  - exact (proj2 (settled_body_runs_again (single stepA (VNum 1)) 1000 pristine)
      eq_refl (steady_single stepA (VNum 1) reliable_stepA) eq_refl I).
Defined.
